(** * tinyfiledialogs-rs: a shallow embedding of the binding layer (src/lib.rs)

    A Rust [&str] / [String] is modelled as the list of its UTF-8 bytes.
    A [CString] is the list of its bytes without the terminating NUL.
    The foreign functions of [mod ffi] are the methods of the class
    [Tinyfd]; every run records the foreign calls it makes in a trace,
    and a Rust panic ([unwrap] on an [Err], [unimplemented!]) is an
    outcome that stops the run. *)

From Stdlib Require Import Strings.Byte Strings.String.
From Stdlib Require Import List ZArith Lia Bool.
Import ListNotations.
Open Scope Z_scope.

(** ** Bytes and strings *)

Abbreviation str := (list byte).

Definition bytes_of (s : string) : str := list_byte_of_string s.

Definition bval (b : byte) : Z := Z.of_N (Byte.to_N b).

(** [true] when the byte is [0x00]. *)
Definition is_nul (b : byte) : bool := Byte.eqb b x00.

(** ** [CString::new]: fails with a [NulError] when the bytes contain 0. *)

Inductive nul_error := NulError (pos : nat) (bytes : str).

Fixpoint nul_position (s : str) : option nat :=
  match s with
  | [] => None
  | b :: r =>
      if is_nul b then Some 0%nat
      else option_map S (nul_position r)
  end.

Abbreviation cstring := (list byte) (only parsing).

Definition CString_new (s : str) : cstring + nul_error :=
  match nul_position s with
  | None => inl s
  | Some p => inr (NulError p s)
  end.

(** [CStr::from_ptr]: the bytes from the pointer up to the first NUL.
    A native buffer is the memory from the returned pointer on. *)
Fixpoint CStr_from_ptr (buf : list byte) : str :=
  match buf with
  | [] => []
  | b :: r => if is_nul b then [] else b :: CStr_from_ptr r
  end.

(** ** [String::from_utf8_lossy] (the [Utf8Chunks] decoder of [core::str])

    Each step reads one character.  A well-formed character is copied;
    an ill-formed prefix (the maximal bytes the decoder consumed before
    it stopped) becomes one U+FFFD, encoded [EF BF BD]. *)

Definition REPLACEMENT_CHARACTER : str := [xef; xbf; xbd].

(** [utf8_char_width] of [core::str::validations]. *)
Definition utf8_char_width (b : byte) : nat :=
  let v := bval b in
  if v <? 128 then 1
  else if (194 <=? v) && (v <=? 223) then 2
  else if (224 <=? v) && (v <=? 239) then 3
  else if (240 <=? v) && (v <=? 244) then 4
  else 0.

(** [(byte as i8) < -64]: a continuation byte [10xxxxxx]. *)
Definition is_cont (b : byte) : bool :=
  let v := bval b in (128 <=? v) && (v <=? 191).

Definition in_range (lo hi : Z) (b : byte) : bool :=
  (lo <=? bval b) && (bval b <=? hi).

(** The allowed second byte of a three-byte sequence led by [first]. *)
Definition second_ok3 (first second : byte) : bool :=
  let f := bval first in
  if f =? 224 then in_range 160 191 second
  else if (225 <=? f) && (f <=? 236) then in_range 128 191 second
  else if f =? 237 then in_range 128 159 second
  else if (238 <=? f) && (f <=? 239) then in_range 128 191 second
  else false.

(** The allowed second byte of a four-byte sequence led by [first]. *)
Definition second_ok4 (first second : byte) : bool :=
  let f := bval first in
  if f =? 240 then in_range 144 191 second
  else if (241 <=? f) && (f <=? 243) then in_range 128 191 second
  else if f =? 244 then in_range 128 143 second
  else false.

Fixpoint from_utf8_lossy (l : list byte) : str :=
  match l with
  | [] => []
  | b :: rest =>
      match utf8_char_width b with
      | 1%nat => b :: from_utf8_lossy rest
      | 2%nat =>
          match rest with
          | c :: rest2 =>
              if is_cont c then b :: c :: from_utf8_lossy rest2
              else REPLACEMENT_CHARACTER ++ from_utf8_lossy rest
          | [] => REPLACEMENT_CHARACTER
          end
      | 3%nat =>
          match rest with
          | c :: rest2 =>
              if second_ok3 b c then
                match rest2 with
                | d :: rest3 =>
                    if is_cont d then b :: c :: d :: from_utf8_lossy rest3
                    else REPLACEMENT_CHARACTER ++ from_utf8_lossy rest2
                | [] => REPLACEMENT_CHARACTER
                end
              else REPLACEMENT_CHARACTER ++ from_utf8_lossy rest
          | [] => REPLACEMENT_CHARACTER
          end
      | 4%nat =>
          match rest with
          | c :: rest2 =>
              if second_ok4 b c then
                match rest2 with
                | d :: rest3 =>
                    if is_cont d then
                      match rest3 with
                      | e :: rest4 =>
                          if is_cont e then
                            b :: c :: d :: e :: from_utf8_lossy rest4
                          else REPLACEMENT_CHARACTER ++ from_utf8_lossy rest3
                      | [] => REPLACEMENT_CHARACTER
                      end
                    else REPLACEMENT_CHARACTER ++ from_utf8_lossy rest2
                | [] => REPLACEMENT_CHARACTER
                end
              else REPLACEMENT_CHARACTER ++ from_utf8_lossy rest
          | [] => REPLACEMENT_CHARACTER
          end
      | _ => REPLACEMENT_CHARACTER ++ from_utf8_lossy rest
      end
  end.

(** [CStr::from_ptr(p).to_string_lossy().into_owned()] *)
Definition owned_string_of_ptr (buf : list byte) : str :=
  from_utf8_lossy (CStr_from_ptr buf).

(** [str::split(c)] for an ASCII [c]: the segments between the
    occurrences of [c], in order; the empty string gives one empty
    segment. *)
Fixpoint split (sep : byte) (s : str) : list str :=
  match s with
  | [] => [[]]
  | b :: r =>
      if Byte.eqb b sep then [] :: split sep r
      else match split sep r with
           | [] => [[b]]
           | seg :: segs => (b :: seg) :: segs
           end
  end.

Definition PIPE : byte := x7c.

(** [usize as c_int]: the low 32 bits, read as a signed integer. *)
Definition as_c_int (n : nat) : Z :=
  let m := Z.of_nat n mod 2 ^ 32 in
  if m <? 2 ^ 31 then m else m - 2 ^ 32.

(** ** The types of the crate *)

(** Type of message box to display *)
Inductive MessageBox := Ok | OkCancel | YesNo.

(** Generic icon displayed beside message box messages *)
Inductive Icon := Info | Warning | Error | Question.

(** Which button to use or which was clicked ([#[repr(i32)]]) *)
Inductive BoxButton := CancelNo | OkYes.

Definition BoxButton_as_i32 (b : BoxButton) : Z :=
  match b with CancelNo => 0 | OkYes => 1 end.

Definition MessageBox_to_str (k : MessageBox) : str :=
  match k with
  | Ok => bytes_of "ok"
  | OkCancel => bytes_of "okcancel"
  | YesNo => bytes_of "yesno"
  end.

Definition Icon_to_str (i : Icon) : str :=
  match i with
  | Info => bytes_of "info"
  | Warning => bytes_of "warning"
  | Error => bytes_of "error"
  | Question => bytes_of "question"
  end.

Definition rgb := (byte * byte * byte)%type.

(** Default value for the color chooser dialog *)
Inductive DefaultColorValue := Hex (hex : str) | RGB (c : rgb).

(** [Option<(&[&str], &str)>]: patterns and description. *)
Definition filter := option (list str * str).

(** The [cfg] the crate is compiled for. *)
Inductive target := Windows | NotWindows.

Definition unwrap_or {A} (o : option A) (d : A) : A :=
  match o with Some a => a | None => d end.

(** ** Foreign calls and their trace

    One event per entry point of [mod ffi], carrying the arguments the
    binding passes: [CString]s by their bytes, counts as [c_int]. *)

(** An optional [*const c_char] taken from an [Option<CString>] with
    [map(|d| d.as_ptr())]: null for [None]; for [Some] the closure takes
    the [CString] by value and frees it when it returns, so the native
    side receives a pointer to freed memory, whose contents the binding
    no longer determines. *)
Inductive char_ptr := NullPtr | DanglingPtr.

(** [o.map(|d| d.as_ptr()).unwrap_or(ptr::null())] and
    [o.map_or(ptr::null(), |h| h.as_ptr())] on an [Option<CString>]. *)
Definition dropped_as_ptr (o : option cstring) : char_ptr :=
  match o with Some _ => DanglingPtr | None => NullPtr end.

Inductive event :=
| EvMessageBox (title message dialog_type icon_type : cstring)
    (default_button : Z)
| EvInputBox (title message : cstring) (default_input : char_ptr)
| EvSaveFileDialog (title default_path : cstring) (num_patterns : Z)
    (patterns : list cstring) (description : cstring)
| EvOpenFileDialog (title default_path : cstring) (num_patterns : Z)
    (patterns : list cstring) (description : cstring) (allow_multiple : Z)
| EvSelectFolderDialog (title default_path : cstring)
| EvArrayDialog (title : cstring) (num_columns : Z) (columns : list cstring)
    (num_rows : Z) (cells : list cstring)
| EvColorChooser (title : cstring) (default_hex : char_ptr)
    (default_rgb : rgb) (result_rgb : rgb).

(** The native library: a returned [char *] is [None] when null and
    otherwise the memory it points to; [tinyfd_colorChooser] also
    returns the final contents of the [result_rgb] buffer it was given. *)
Class Tinyfd := {
  tinyfd_messageBox : cstring -> cstring -> cstring -> cstring -> Z -> Z;
  tinyfd_inputBox : cstring -> cstring -> char_ptr -> option (list byte);
  tinyfd_saveFileDialog :
    cstring -> cstring -> Z -> list cstring -> cstring -> option (list byte);
  tinyfd_openFileDialog :
    cstring -> cstring -> Z -> list cstring -> cstring -> Z -> option (list byte);
  tinyfd_selectFolderDialog : cstring -> cstring -> option (list byte);
  tinyfd_arrayDialog :
    cstring -> Z -> list cstring -> Z -> list cstring -> option (list byte);
  tinyfd_colorChooser :
    cstring -> char_ptr -> rgb -> rgb -> option (list byte) * rgb
}.

Inductive panic := UnwrapNulError (e : nul_error) | Unimplemented.

Inductive outcome (A : Type) := Done (a : A) | Panicked (p : panic).
Arguments Done {A} a.
Arguments Panicked {A} p.

(** A computation threads the trace of foreign calls made so far. *)
Definition M (A : Type) := list event -> list event * outcome A.

Definition ret {A} (a : A) : M A := fun tr => (tr, Done a).

Definition bind {A B} (m : M A) (f : A -> M B) : M B :=
  fun tr =>
    match m tr with
    | (tr', Done a) => f a tr'
    | (tr', Panicked p) => (tr', Panicked p)
    end.

Definition raise {A} (p : panic) : M A := fun tr => (tr, Panicked p).

Notation "x <- m ;; k" := (bind m (fun x => k))
  (at level 61, m at next level, right associativity).

(** Run from an empty trace. *)
Definition run {A} (m : M A) : list event * outcome A := m [].

(** [CString::new(s).unwrap()] *)
Definition cstring_new_unwrap (s : str) : M cstring :=
  match CString_new s with
  | inl c => ret c
  | inr e => raise (UnwrapNulError e)
  end.

(** [xs.iter().map(|s| CString::new( *s).unwrap()).collect()] *)
Fixpoint cstrings_unwrap (xs : list str) : M (list cstring) :=
  match xs with
  | [] => ret []
  | x :: xs' =>
      c <- cstring_new_unwrap x;;
      cs <- cstrings_unwrap xs';;
      ret (c :: cs)
  end.

Definition ffi {A} (ev : event) (res : A) : M A :=
  fun tr => (tr ++ [ev], Done res).

(** ** Auxiliary definitions for the statements *)

Definition has_nul (s : str) : bool := existsb is_nul s.

Definition all_nul_free (xs : list str) : bool :=
  forallb (fun s => negb (has_nul s)) xs.

(** A run that panics before the native library is called. *)
Definition panics_before_ffi {A} (m : M A) : Prop :=
  exists p, run m = ([], Panicked p).

(** A computation that makes no foreign call. *)
Definition no_native_call {A} (m : M A) : Prop :=
  forall tr, fst (m tr) = tr.

(** A computation whose panics all leave the trace as it was: it never
    panics after a foreign call. *)
Definition panics_only_before_call {A} (m : M A) : Prop :=
  forall tr tr' p, m tr = (tr', Panicked p) -> tr' = tr.

(** A computation that never panics. *)
Definition never_panics {A} (m : M A) : Prop :=
  forall tr tr' p, m tr <> (tr', Panicked p).

(** A computation that makes at most one foreign call. *)
Definition at_most_one_call {A} (m : M A) : Prop :=
  forall tr, fst (m tr) = tr \/ exists e, fst (m tr) = tr ++ [e].

Definition zero_rgb : rgb := (x00, x00, x00).

(** [segs.join(sep)] *)
Fixpoint join (sep : byte) (segs : list str) : str :=
  match segs with
  | [] => []
  | s :: rest =>
      match rest with
      | [] => s
      | _ :: _ => s ++ sep :: join sep rest
      end
  end.

Definition filter_pats (f : filter) : list str :=
  match f with Some (ps, _) => ps | None => [] end.

(** [Some(if multi { split } else { vec![result] })] *)
Definition open_result (multi : bool) (c : option (list byte)) : option (list str) :=
  match c with
  | Some buf =>
      let result := owned_string_of_ptr buf in
      Some (if multi then split PIPE result else [result])
  | None => None
  end.

(** First element of a multi-result, as [open_file_dialog] takes it. *)
Definition first_of (o : outcome (option (list str))) : outcome (option str) :=
  match o with
  | Done (Some v) => Done (hd_error v)
  | Done None => Done None
  | Panicked p => Panicked p
  end.

(** The multi-result joined back with [|], as a single string. *)
Definition join_of (o : outcome (option (list str))) : outcome (option str) :=
  match o with
  | Done (Some v) => Done (Some (join PIPE v))
  | Done None => Done None
  | Panicked p => Panicked p
  end.

Fixpoint valid_utf8 (l : list byte) : bool :=
  match l with
  | [] => true
  | b :: rest =>
      match utf8_char_width b with
      | 1%nat => valid_utf8 rest
      | 2%nat =>
          match rest with
          | c :: rest2 => is_cont c && valid_utf8 rest2
          | [] => false
          end
      | 3%nat =>
          match rest with
          | c :: d :: rest3 => second_ok3 b c && is_cont d && valid_utf8 rest3
          | _ => false
          end
      | 4%nat =>
          match rest with
          | c :: d :: e :: rest4 =>
              second_ok4 b c && is_cont d && is_cont e && valid_utf8 rest4
          | _ => false
          end
      | _ => false
      end
  end.

(** ** The exposed operations (src/lib.rs) *)

Section Binding.
Context `{tfd : Tinyfd}.

(** [CStr::from_ptr(p).to_string_lossy().into_owned()] on a nullable
    pointer, as the [if !p.is_null() { Some(..) } else { None }] of every
    string-returning operation. *)
Definition decode_result (p : option (list byte)) : option str :=
  match p with
  | Some buf => Some (owned_string_of_ptr buf)
  | None => None
  end.

Definition message_box (kind : MessageBox) (title message : str)
    (icon : option Icon) (default_button : option BoxButton) : M BoxButton :=
  message_box_title <- cstring_new_unwrap title;;
  message_box_message <- cstring_new_unwrap message;;
  message_box_type <- cstring_new_unwrap (MessageBox_to_str kind);;
  message_box_icon <- cstring_new_unwrap (Icon_to_str (unwrap_or icon Info));;
  let db := BoxButton_as_i32 (unwrap_or default_button OkYes) in
  res <- ffi (EvMessageBox message_box_title message_box_message
                message_box_type message_box_icon db)
             (tinyfd_messageBox message_box_title message_box_message
                message_box_type message_box_icon db);;
  match res with
  | 0 => ret CancelNo
  | 1 => ret OkYes
  | _ => raise Unimplemented
  end.

(** The default's [CString] is freed inside [map(|d| d.as_ptr())], so
    the native call gets [dropped_as_ptr] of it. *)
Definition input_box_impl (title message : str) (default : option str)
    : M (option str) :=
  input_box_title <- cstring_new_unwrap title;;
  input_box_message <- cstring_new_unwrap message;;
  input_box_default <-
    match default with
    | Some d => c <- cstring_new_unwrap d;; ret (Some c)
    | None => ret None
    end;;
  let default_ptr := dropped_as_ptr input_box_default in
  c_input <- ffi (EvInputBox input_box_title input_box_message default_ptr)
               (tinyfd_inputBox input_box_title input_box_message default_ptr);;
  ret (decode_result c_input).

(** [default.or(Some(""))] *)
Definition input_box (title message : str) (default : option str)
    : M (option str) :=
  input_box_impl title message
    (match default with Some d => Some d | None => Some [] end).

Definition password_box (title message : str) : M (option str) :=
  input_box_impl title message None.

Definition filter_description (f : filter) : str :=
  match f with Some (_, d) => d | None => [] end.

Definition filter_patterns (f : filter) : M (list cstring) :=
  match f with Some (ps, _) => cstrings_unwrap ps | None => ret [] end.

Definition save_file_dialog_impl (title path : str) (f : filter)
    : M (option str) :=
  save_dialog_title <- cstring_new_unwrap title;;
  save_dialog_path <- cstring_new_unwrap path;;
  save_dialog_des <- cstring_new_unwrap (filter_description f);;
  pats <- filter_patterns f;;
  let n := as_c_int (List.length pats) in
  c_file_name <-
    ffi (EvSaveFileDialog save_dialog_title save_dialog_path n pats save_dialog_des)
        (tinyfd_saveFileDialog save_dialog_title save_dialog_path n pats
           save_dialog_des);;
  ret (decode_result c_file_name).

Definition save_file_dialog_with_filter (title path : str)
    (filter_patterns : list str) (description : str) : M (option str) :=
  save_file_dialog_impl title path (Some (filter_patterns, description)).

Definition save_file_dialog (title path : str) : M (option str) :=
  save_file_dialog_impl title path None.

Definition open_file_dialog_impl (title path : str) (f : filter) (multi : bool)
    : M (option (list str)) :=
  open_dialog_title <- cstring_new_unwrap title;;
  open_dialog_path <- cstring_new_unwrap path;;
  open_dialog_des <- cstring_new_unwrap (filter_description f);;
  pats <- filter_patterns f;;
  let n := as_c_int (List.length pats) in
  let m := if multi then 1 else 0 in
  c_file_name <-
    ffi (EvOpenFileDialog open_dialog_title open_dialog_path n pats
           open_dialog_des m)
        (tinyfd_openFileDialog open_dialog_title open_dialog_path n pats
           open_dialog_des m);;
  match c_file_name with
  | Some buf =>
      let result := owned_string_of_ptr buf in
      ret (Some (if multi then split PIPE result else [result]))
  | None => ret None
  end.

(** [.and_then(|v| v.into_iter().next())] *)
Definition open_file_dialog (title path : str) (f : filter) : M (option str) :=
  v <- open_file_dialog_impl title path f false;;
  ret (match v with Some v => hd_error v | None => None end).

Definition open_file_dialog_multi (title path : str) (f : filter)
    : M (option (list str)) :=
  open_file_dialog_impl title path f true.

Definition select_folder_dialog (title path : str) : M (option str) :=
  select_folder_title <- cstring_new_unwrap title;;
  select_folder_path <- cstring_new_unwrap path;;
  folder <- ffi (EvSelectFolderDialog select_folder_title select_folder_path)
              (tinyfd_selectFolderDialog select_folder_title select_folder_path);;
  ret (decode_result folder).

(** The two [cfg] variants of [list_dialog_impl]. *)
Definition list_dialog_impl (tgt : target) (title : str) (columns : list str)
    (cells : option (list str)) : M (option str) :=
  match tgt with
  | Windows => raise Unimplemented
  | NotWindows =>
      list_dialog_title <- cstring_new_unwrap title;;
      match columns with
      | [] => ret None
      | _ :: _ =>
          list_dialog_columns <- cstrings_unwrap columns;;
          list_dialog_cells <-
            match cells with
            | Some cs => cstrings_unwrap cs
            | None => ret []
            end;;
          let ncols := as_c_int (List.length list_dialog_columns) in
          let nrows := as_c_int (Nat.div (List.length list_dialog_cells)
                                         (List.length list_dialog_columns)) in
          dialog <- ffi (EvArrayDialog list_dialog_title ncols list_dialog_columns
                           nrows list_dialog_cells)
                       (tinyfd_arrayDialog list_dialog_title ncols
                          list_dialog_columns nrows list_dialog_cells);;
          ret (decode_result dialog)
      end
  end.

Definition list_dialog (tgt : target) (title : str) (columns : list str)
    (cells : option (list str)) : M (option str) :=
  list_dialog_impl tgt title columns cells.

(** As in [input_box_impl], the hex [CString] is freed inside
    [map_or(ptr::null(), |h| h.as_ptr())]. *)
Definition color_chooser_dialog (title : str) (default : DefaultColorValue)
    : M (option (str * rgb)) :=
  color_title <- cstring_new_unwrap title;;
  let rubbish : rgb := (x00, x00, x00) in
  defaults <-
    match default with
    | Hex hex => c <- cstring_new_unwrap hex;; ret (Some c, rubbish)
    | RGB c => ret (None, c)
    end;;
  let color_default_hex := fst defaults in
  let color_default_rgb := snd defaults in
  let color_result_rgb : rgb := (x00, x00, x00) in
  let hex_ptr := dropped_as_ptr color_default_hex in
  result <- ffi (EvColorChooser color_title hex_ptr color_default_rgb
                   color_result_rgb)
              (tinyfd_colorChooser color_title hex_ptr
                 color_default_rgb color_result_rgb);;
  match fst result with
  | Some buf => ret (Some (owned_string_of_ptr buf, snd result))
  | None => ret None
  end.

(** The strings of a filter have no NUL byte. *)
Definition filter_ok (f : filter) : bool :=
  negb (has_nul (filter_description f)) && all_nul_free (filter_pats f).

(** The native code [message_box] receives for its arguments. *)
Definition message_box_code (kind : MessageBox) (title message : str)
    (icon : option Icon) (default_button : option BoxButton) : Z :=
  tinyfd_messageBox title message (MessageBox_to_str kind)
    (Icon_to_str (unwrap_or icon Info))
    (BoxButton_as_i32 (unwrap_or default_button OkYes)).

(** The native result of the open-file call for these arguments. *)
Definition open_native (title path : str) (f : filter) (multi : bool) :=
  tinyfd_openFileDialog title path (as_c_int (length (filter_pats f)))
    (filter_pats f) (filter_description f) (if multi then 1 else 0).

End Binding.

(** ** The build script (src/build.rs) *)

(** [std::env::VarError] *)
Inductive var_error := NotPresent | NotUnicode.

(** [env::var(name)] on the variable's raw value, if it is set. *)
Definition env_var (raw : option (list byte)) : str + var_error :=
  match raw with
  | None => inr NotPresent
  | Some b => if valid_utf8 b then inl b else inr NotUnicode
  end.

Fixpoint starts_with (prefix s : str) : bool :=
  match prefix, s with
  | [], _ => true
  | p :: ps, c :: cs => Byte.eqb p c && starts_with ps cs
  | _ :: _, [] => false
  end.

(** [str::contains] with a [&str] pattern. *)
Fixpoint contains (hay needle : str) : bool :=
  starts_with needle hay ||
  match hay with
  | [] => false
  | _ :: rest => contains rest needle
  end.

(** What [main] of the build script does, in order. *)
Inductive build_action :=
| CompileC (file : str) (flags : list str) (output : str)
| PrintLn (line : str).

(** Why the build script panics: the [unwrap] of [env::var("TARGET")],
    or [gcc::Config::compile], which panics when the C compiler or the
    archiver fails or [OUT_DIR] is unset. *)
Inductive build_panic := TargetVarError (e : var_error) | CompileFailed.

Inductive build_outcome :=
| BuildDone (actions : list build_action)
| BuildPanicked (p : build_panic).

Definition compile_native : build_action :=
  CompileC (bytes_of "libtinyfiledialogs/tinyfiledialogs.c") [bytes_of "-v"]
    (bytes_of "libtinyfiledialogs.a").

Definition windows_links : list build_action :=
  [PrintLn (bytes_of "cargo:rustc-link-lib=user32");
   PrintLn (bytes_of "cargo:rustc-link-lib=comdlg32");
   PrintLn (bytes_of "cargo:rustc-link-lib=ole32")].

(** [fn main()] of build.rs, given the raw value of [TARGET] and
    whether [cfg.compile(..)] succeeds in the build environment ([gcc]
    is a dependency, outside this repository). *)
Definition build_main (target_var : option (list byte)) (compile_ok : bool)
    : build_outcome :=
  match env_var target_var with
  | inr e => BuildPanicked (TargetVarError e)
  | inl target =>
      if compile_ok then
        BuildDone (compile_native ::
                   (if contains target (bytes_of "windows") then windows_links else []))
      else BuildPanicked CompileFailed
  end.

(** ** A native library returning fixed values, for concrete runs *)

Definition fixed_tfd (code : Z) (out : option (list byte)) (color : rgb)
    : Tinyfd := {|
  tinyfd_messageBox := fun _ _ _ _ _ => code;
  tinyfd_inputBox := fun _ _ _ => out;
  tinyfd_saveFileDialog := fun _ _ _ _ _ => out;
  tinyfd_openFileDialog := fun _ _ _ _ _ _ => out;
  tinyfd_selectFolderDialog := fun _ _ => out;
  tinyfd_arrayDialog := fun _ _ _ _ _ => out;
  tinyfd_colorChooser := fun _ _ _ _ => (out, color)
|}.

Example message_box_fixed_2 :
  run (message_box (tfd := fixed_tfd 2 None (x00, x00, x00)) YesNo (bytes_of "hello") (bytes_of "yes or no?") None None)
  = ([EvMessageBox (bytes_of "hello") (bytes_of "yes or no?")
        (bytes_of "yesno") (bytes_of "info") 1], Panicked Unimplemented).
Proof. reflexivity. Qed.

Example open_multi_fixed :
  run (open_file_dialog_multi
         (tfd := fixed_tfd 0 (Some (bytes_of "a|b|c")) (x00, x00, x00))
         (bytes_of "Open") [] None)
  = ([EvOpenFileDialog (bytes_of "Open") [] 0 [] [] 1],
     Done (Some [bytes_of "a"; bytes_of "b"; bytes_of "c"])).
Proof. reflexivity. Qed.

Example lossy_invalid :
  from_utf8_lossy [x61; x80; xe2; x82; xac; xe2; x82; x62]
  = [x61] ++ REPLACEMENT_CHARACTER ++ [xe2; x82; xac]
      ++ REPLACEMENT_CHARACTER ++ [x62].
Proof. reflexivity. Qed.

(** ** Running the marshaling steps *)

Lemma nul_position_none s : has_nul s = false -> nul_position s = None.
Proof.
  induction s as [|b s IH]; simpl; [reflexivity|].
  intros Hn. apply orb_false_iff in Hn as [Hb Hs].
  rewrite Hb, IH by exact Hs. reflexivity.
Qed.

Lemma nul_position_some s : has_nul s = true -> exists p, nul_position s = Some p.
Proof.
  induction s as [|b s IH]; simpl; [discriminate|].
  intros Hn. destruct (is_nul b); [exists 0%nat; reflexivity|].
  destruct (IH Hn) as [p Hp]. rewrite Hp. exists (S p). reflexivity.
Qed.

Lemma unwrap_ok s tr : has_nul s = false -> cstring_new_unwrap s tr = (tr, Done s).
Proof.
  intros Hn. unfold cstring_new_unwrap, CString_new.
  rewrite nul_position_none by exact Hn. reflexivity.
Qed.

Lemma unwrap_nul s tr :
  has_nul s = true -> exists p, cstring_new_unwrap s tr = (tr, Panicked p).
Proof.
  intros Hn. unfold cstring_new_unwrap, CString_new.
  destruct (nul_position_some s Hn) as [p Hp]. rewrite Hp.
  exists (UnwrapNulError (NulError p s)). reflexivity.
Qed.

Lemma bind_done {A B} (m : M A) (f : A -> M B) tr tr' a :
  m tr = (tr', Done a) -> bind m f tr = f a tr'.
Proof. intros E. unfold bind. rewrite E. reflexivity. Qed.

Lemma bind_panicked {A B} (m : M A) (f : A -> M B) tr tr' p :
  m tr = (tr', Panicked p) -> bind m f tr = (tr', Panicked p).
Proof. intros E. unfold bind. rewrite E. reflexivity. Qed.

Lemma cstrings_ok xs tr :
  all_nul_free xs = true -> cstrings_unwrap xs tr = (tr, Done xs).
Proof.
  induction xs as [|x xs IH]; simpl; [reflexivity|].
  intros Hall. apply andb_true_iff in Hall as [Hx Hxs].
  apply negb_true_iff in Hx.
  rewrite (bind_done _ _ _ _ _ (unwrap_ok x tr Hx)).
  rewrite (bind_done _ _ _ _ _ (IH Hxs)). reflexivity.
Qed.

(** Marshaling a list never calls the native library. *)
Lemma cstrings_trace xs tr : fst (cstrings_unwrap xs tr) = tr.
Proof.
  revert tr. induction xs as [|x xs IH]; intros tr; simpl; [reflexivity|].
  unfold bind at 1, cstring_new_unwrap.
  destruct (CString_new x); simpl; [|reflexivity].
  unfold bind. specialize (IH tr).
  destruct (cstrings_unwrap xs tr) as [tr' [a|p]]; simpl in *; congruence.
Qed.

Lemma to_str_nul_free k i :
  has_nul (MessageBox_to_str k) = false /\ has_nul (Icon_to_str i) = false.
Proof. destruct k, i; split; reflexivity. Qed.

(** The step taken on a title that contains a NUL byte. *)
Ltac panic_on_first s :=
  let p := fresh "p" in let E := fresh "E" in
  destruct (unwrap_nul s [] ltac:(assumption)) as [p E];
  exists p; unfold run; (rewrite (bind_panicked _ _ _ _ _ E) || fail).

(** [run] of a bound computation whose first step succeeds. *)
Ltac unwrap_step s Hs :=
  rewrite (bind_done _ _ _ _ _ (unwrap_ok s _ Hs)).

(** ** Claims *)

Section Claims.
Context `{tfd : Tinyfd}.

Lemma message_box_run kind title message icon default_button :
  has_nul title = false -> has_nul message = false ->
  run (message_box kind title message icon default_button)
  = let code := message_box_code kind title message icon default_button in
    ([EvMessageBox title message (MessageBox_to_str kind)
        (Icon_to_str (unwrap_or icon Info))
        (BoxButton_as_i32 (unwrap_or default_button OkYes))],
     match code with
     | 0 => Done CancelNo
     | 1 => Done OkYes
     | _ => Panicked Unimplemented
     end).
Proof.
  intros Ht Hm. destruct (to_str_nul_free kind (unwrap_or icon Info)) as [Hk Hi].
  unfold run, message_box.
  unwrap_step title Ht. unwrap_step message Hm.
  unwrap_step (MessageBox_to_str kind) Hk.
  unwrap_step (Icon_to_str (unwrap_or icon Info)) Hi.
  unfold bind, ffi, message_box_code; simpl.
  destruct (tinyfd_messageBox _ _ _ _ _) as [|[| |]|]; reflexivity.
Qed.

(** C4: once [message_box] reaches the native call, native code 0 yields
    [CancelNo], code 1 yields [OkYes], and any other code panics
    ([unimplemented!]) instead of producing a button. *)
Theorem message_box_native_code kind title message icon default_button :
  has_nul title = false -> has_nul message = false ->
  let code := message_box_code kind title message icon default_button in
  let out := snd (run (message_box kind title message icon default_button)) in
  (code = 0 -> out = Done CancelNo) /\
  (code = 1 -> out = Done OkYes) /\
  (code <> 0 -> code <> 1 -> out = Panicked Unimplemented).
Proof.
  intros Ht Hm code out. subst out.
  rewrite (message_box_run kind title message icon default_button Ht Hm).
  cbv zeta. cbn [snd]. fold code.
  split; [|split].
  - intros E. rewrite E. reflexivity.
  - intros E. rewrite E. reflexivity.
  - intros E0 E1. destruct code as [|[p|p|]|p]; try reflexivity; congruence.
Qed.

End Claims.

Lemma message_box_native_code_witness :
  let t := fixed_tfd 7 None (x00, x00, x00) in
  snd (run (message_box (tfd := t) OkCancel (bytes_of "t") (bytes_of "m") None None))
  = Panicked Unimplemented.
Proof.
  intros t.
  apply (message_box_native_code (tfd := t) OkCancel (bytes_of "t") (bytes_of "m")
           None None eq_refl eq_refl); vm_compute; discriminate.
Defined.

Lemma panics_bind {A B} (m : M A) (f : A -> M B) :
  panics_before_ffi m -> panics_before_ffi (bind m f).
Proof.
  intros [p E]. exists p. unfold run in *. exact (bind_panicked _ _ _ _ _ E).
Qed.

Lemma panics_after_done {A B} (m : M A) (f : A -> M B) a :
  m [] = ([], Done a) -> panics_before_ffi (f a) -> panics_before_ffi (bind m f).
Proof.
  intros E [p Ef]. exists p. unfold run in *. rewrite (bind_done _ _ _ _ _ E). exact Ef.
Qed.

Lemma panics_unwrap s : has_nul s = true -> panics_before_ffi (cstring_new_unwrap s).
Proof. intros Hs. destruct (unwrap_nul s [] Hs) as [p E]. exists p. exact E. Qed.

Ltac first_arg_panics :=
  repeat apply panics_bind; apply panics_unwrap; assumption.

Ltac second_arg_panics Hfirst :=
  eapply panics_after_done; [exact (unwrap_ok _ [] Hfirst)|]; first_arg_panics.

Section Claims2.
Context `{tfd : Tinyfd}.

(** C6: a title with a NUL byte makes every exposed operation panic
    before any native call, and so does a message with a NUL byte for
    the operations that take a message. *)
Theorem nul_argument_panics_before_ffi kind title message icon default_button
    default path (f : filter) pats description tgt columns cells color :
  (has_nul title = true ->
     panics_before_ffi (message_box kind title message icon default_button) /\
     panics_before_ffi (input_box title message default) /\
     panics_before_ffi (password_box title message) /\
     panics_before_ffi (save_file_dialog_with_filter title path pats description) /\
     panics_before_ffi (save_file_dialog title path) /\
     panics_before_ffi (open_file_dialog title path f) /\
     panics_before_ffi (open_file_dialog_multi title path f) /\
     panics_before_ffi (select_folder_dialog title path) /\
     panics_before_ffi (list_dialog tgt title columns cells) /\
     panics_before_ffi (color_chooser_dialog title color)) /\
  (has_nul message = true ->
     panics_before_ffi (message_box kind title message icon default_button) /\
     panics_before_ffi (input_box title message default) /\
     panics_before_ffi (password_box title message)).
Proof.
  split.
  - intros Ht.
    unfold message_box, input_box, password_box, input_box_impl,
      save_file_dialog_with_filter, save_file_dialog, save_file_dialog_impl,
      open_file_dialog, open_file_dialog_multi, open_file_dialog_impl,
      select_folder_dialog, color_chooser_dialog.
    repeat split; try first_arg_panics.
    unfold list_dialog, list_dialog_impl. destruct tgt.
    + exists Unimplemented. reflexivity.
    + first_arg_panics.
  - intros Hm.
    destruct (has_nul title) eqn:Ht.
    + unfold message_box, input_box, password_box, input_box_impl.
      repeat split; first_arg_panics.
    + unfold message_box, input_box, password_box, input_box_impl.
      repeat split; second_arg_panics Ht.
Qed.

End Claims2.

Lemma nul_argument_panics_before_ffi_witness :
  let t := fixed_tfd 1 (Some (bytes_of "x")) (x00, x00, x00) in
  panics_before_ffi (list_dialog (tfd := t) NotWindows [x61; x00] [bytes_of "Id"] None) /\
  panics_before_ffi (input_box (tfd := t) (bytes_of "t") [x00] None).
Proof.
  intros t. split.
  - destruct (proj1 (nul_argument_panics_before_ffi (tfd := t) Ok [x61; x00] []
                        None None None [] None [] [] NotWindows [bytes_of "Id"]
                        None (Hex [])) eq_refl)
      as (_ & _ & _ & _ & _ & _ & _ & _ & Hl & _).
    exact Hl.
  - destruct (proj2 (nul_argument_panics_before_ffi (tfd := t) Ok (bytes_of "t") [x00]
                        None None None [] None [] [] NotWindows [] None (Hex []))
                eq_refl) as (_ & Hi & _).
    exact Hi.
Defined.

Section Claims3.
Context `{tfd : Tinyfd}.

Lemma input_box_impl_run title message default :
  has_nul title = false -> has_nul message = false ->
  all_nul_free (match default with Some d => [d] | None => [] end) = true ->
  run (input_box_impl title message default)
  = ([EvInputBox title message (dropped_as_ptr default)],
     Done (decode_result (tinyfd_inputBox title message (dropped_as_ptr default)))).
Proof.
  intros Ht Hm Hd. unfold run, input_box_impl.
  unwrap_step title Ht. unwrap_step message Hm.
  destruct default as [d|].
  - simpl in Hd. rewrite andb_true_r in Hd. apply negb_true_iff in Hd.
    unfold bind at 1. unwrap_step d Hd. reflexivity.
  - reflexivity.
Qed.


End Claims3.



Section Claims4.
Context `{tfd : Tinyfd}.

Lemma color_chooser_run title default :
  has_nul title = false ->
  all_nul_free (match default with Hex h => [h] | RGB _ => [] end) = true ->
  let hex := match default with Hex _ => DanglingPtr | RGB _ => NullPtr end in
  let def_rgb := match default with Hex _ => zero_rgb | RGB c => c end in
  run (color_chooser_dialog title default)
  = ([EvColorChooser title hex def_rgb zero_rgb],
     Done (match tinyfd_colorChooser title hex def_rgb zero_rgb with
           | (Some buf, out) => Some (owned_string_of_ptr buf, out)
           | (None, _) => None
           end)).
Proof.
  intros Ht Hd hex def_rgb. unfold run, color_chooser_dialog.
  unwrap_step title Ht.
  destruct default as [h|c]; subst hex def_rgb.
  - simpl in Hd. rewrite andb_true_r in Hd. apply negb_true_iff in Hd.
    unfold cstring_new_unwrap at 1, CString_new.
    rewrite (nul_position_none h Hd).
    unfold bind, ret, ffi; simpl.
    destruct (tinyfd_colorChooser _ _ _ _) as [[buf|] out]; reflexivity.
  - unfold bind, ret, ffi; simpl.
    destruct (tinyfd_colorChooser _ _ _ _) as [[buf|] out]; reflexivity.
Qed.

(** C8: with a [Hex] default the native call gets an all-zero RGB input
    but not the hex string: its [CString] is freed inside
    [map_or(ptr::null(), |h| h.as_ptr())], so the hex slot holds a
    dangling pointer, the same for every hex text.  With an [RGB] default
    it gets a null hex default and that triple.  A non-null native result
    gives the decoded hex string together with the RGB triple the native
    side wrote. *)
Theorem color_chooser_defaults title hex hex' c :
  has_nul title = false ->
  (has_nul hex = false ->
   fst (run (color_chooser_dialog title (Hex hex)))
   = [EvColorChooser title DanglingPtr zero_rgb zero_rgb] /\
   (has_nul hex' = false ->
    run (color_chooser_dialog title (Hex hex)) = run (color_chooser_dialog title (Hex hex'))) /\
   (forall buf out,
      tinyfd_colorChooser title DanglingPtr zero_rgb zero_rgb = (Some buf, out) ->
      snd (run (color_chooser_dialog title (Hex hex)))
      = Done (Some (owned_string_of_ptr buf, out)))) /\
  fst (run (color_chooser_dialog title (RGB c)))
  = [EvColorChooser title NullPtr c zero_rgb] /\
  (forall buf out,
     tinyfd_colorChooser title NullPtr c zero_rgb = (Some buf, out) ->
     snd (run (color_chooser_dialog title (RGB c)))
     = Done (Some (owned_string_of_ptr buf, out))).
Proof.
  intros Ht. split; [intros Hh; split; [|split]|split].
  - rewrite (color_chooser_run title (Hex hex) Ht); [reflexivity|].
    simpl. rewrite Hh. reflexivity.
  - intros Hh'.
    rewrite (color_chooser_run title (Hex hex) Ht) by (simpl; rewrite Hh; reflexivity).
    rewrite (color_chooser_run title (Hex hex') Ht) by (simpl; rewrite Hh'; reflexivity).
    reflexivity.
  - intros buf out E.
    rewrite (color_chooser_run title (Hex hex) Ht);
      cbn -[zero_rgb owned_string_of_ptr]; [rewrite E; reflexivity|].
    rewrite Hh. reflexivity.
  - rewrite (color_chooser_run title (RGB c) Ht eq_refl). reflexivity.
  - intros buf out E.
    rewrite (color_chooser_run title (RGB c) Ht eq_refl).
    cbn -[zero_rgb owned_string_of_ptr]. rewrite E.
    reflexivity.
Qed.

End Claims4.

Lemma color_chooser_defaults_witness :
  let t := fixed_tfd 0 (Some (bytes_of "#010203")) (x01, x02, x03) in
  snd (run (color_chooser_dialog (tfd := t) (bytes_of "Choose a Color")
              (Hex (bytes_of "#FF0000"))))
  = Done (Some (bytes_of "#010203", (x01, x02, x03))).
Proof.
  intros t.
  destruct (color_chooser_defaults (tfd := t) (bytes_of "Choose a Color")
              (bytes_of "#FF0000") (bytes_of "#00FF00") (x01, x02, x03) eq_refl)
    as [Hhex _].
  destruct (Hhex eq_refl) as (_ & _ & Hres).
  apply (Hres (bytes_of "#010203") (x01, x02, x03)). reflexivity.
Defined.

(** The hex default of [color_chooser_dialog] never reaches the native
    call: two different hex texts give the same call. *)
Lemma color_chooser_hex_dangles :
  let t := fixed_tfd 0 None zero_rgb in
  fst (run (color_chooser_dialog (tfd := t) (bytes_of "c") (Hex (bytes_of "#FF0000"))))
  = [EvColorChooser (bytes_of "c") DanglingPtr zero_rgb zero_rgb] /\
  fst (run (color_chooser_dialog (tfd := t) (bytes_of "c") (Hex (bytes_of "#FF0000"))))
  = fst (run (color_chooser_dialog (tfd := t) (bytes_of "c") (Hex (bytes_of "#00FF00")))).
Proof. split; reflexivity. Qed.

(** ** [str::split] on a separator *)

Lemma split_not_nil sep s : split sep s <> [].
Proof.
  destruct s as [|b r]; simpl; [discriminate|].
  destruct (Byte.eqb b sep); [discriminate|].
  destruct (split sep r); discriminate.
Qed.

Lemma join_cons_seg sep b seg segs :
  join sep ((b :: seg) :: segs) = b :: join sep (seg :: segs).
Proof. destruct segs; reflexivity. Qed.

Lemma join_split sep s : join sep (split sep s) = s.
Proof.
  induction s as [|b r IH]; [reflexivity|]. simpl.
  destruct (Byte.eqb b sep) eqn:E.
  - apply Byte.byte_dec_bl in E. subst b.
    pose proof (split_not_nil sep r) as Hne. revert IH Hne.
    destruct (split sep r) as [|seg segs]; intros IH Hne; [congruence|].
    change (join sep ([] :: seg :: segs)) with (sep :: join sep (seg :: segs)).
    rewrite IH. reflexivity.
  - pose proof (split_not_nil sep r) as Hne. revert IH Hne.
    destruct (split sep r) as [|seg segs]; intros IH Hne; [congruence|].
    rewrite join_cons_seg, IH. reflexivity.
Qed.

Lemma split_segments_sep_free sep s :
  Forall (fun seg => ~ In sep seg) (split sep s).
Proof.
  induction s as [|b r IH]; simpl.
  - constructor; [intros []|constructor].
  - destruct (Byte.eqb b sep) eqn:E.
    + constructor; [intros []|exact IH].
    + destruct (split sep r) as [|seg segs] eqn:Hs;
        [exfalso; exact (split_not_nil _ _ Hs)|].
      apply Forall_cons_iff in IH as [Hseg Hsegs].
      constructor; [|exact Hsegs].
      intros [Hb|Hin]; [subst b; rewrite Byte.byte_dec_lb in E by reflexivity;
                         discriminate|exact (Hseg Hin)].
Qed.

Lemma split_sep_free sep s : ~ In sep s -> split sep s = [s].
Proof.
  induction s as [|b r IH]; simpl; [reflexivity|].
  intros Hn. destruct (Byte.eqb b sep) eqn:E.
  - apply Byte.byte_dec_bl in E. subst b. exfalso. apply Hn. left. reflexivity.
  - rewrite IH by (intros Hin; apply Hn; right; exact Hin). reflexivity.
Qed.

(** The first segment is the prefix before the first separator. *)
Lemma split_head_shorter sep s :
  In sep s -> exists seg segs, split sep s = seg :: segs /\ (length seg < length s)%nat.
Proof.
  induction s as [|b r IH]; simpl; [intros []|].
  intros Hin. destruct (Byte.eqb b sep) eqn:E.
  - exists [], (split sep r). split; [reflexivity|simpl; lia].
  - destruct Hin as [Hb|Hin].
    + subst b. rewrite Byte.byte_dec_lb in E by reflexivity. discriminate.
    + destruct (IH Hin) as (seg & segs & Hs & Hl). rewrite Hs.
      exists (b :: seg), segs. split; [reflexivity|simpl; lia].
Qed.

Lemma split_head_whole sep s : hd_error (split sep s) = Some s <-> ~ In sep s.
Proof.
  split.
  - intros Hhd Hin. destruct (split_head_shorter sep s Hin) as (seg & segs & Hs & Hl).
    rewrite Hs in Hhd. injection Hhd as <-. lia.
  - intros Hn. rewrite split_sep_free by exact Hn. reflexivity.
Qed.

Example split_abc :
  split PIPE (bytes_of "a|b|c") = [bytes_of "a"; bytes_of "b"; bytes_of "c"].
Proof. reflexivity. Qed.

Lemma filter_patterns_ok f tr :
  all_nul_free (filter_pats f) = true -> filter_patterns f tr = (tr, Done (filter_pats f)).
Proof. destruct f as [[ps d]|]; simpl; [apply cstrings_ok|reflexivity]. Qed.

Section OpenFile.
Context `{tfd : Tinyfd}.

Lemma open_file_dialog_impl_run title path f multi :
  has_nul title = false -> has_nul path = false -> filter_ok f = true ->
  run (open_file_dialog_impl title path f multi)
  = ([EvOpenFileDialog title path (as_c_int (length (filter_pats f)))
        (filter_pats f) (filter_description f) (if multi then 1 else 0)],
     Done (open_result multi (open_native title path f multi))).
Proof.
  intros Ht Hp Hf. apply andb_true_iff in Hf as [Hd Hps].
  apply negb_true_iff in Hd.
  unfold run, open_file_dialog_impl.
  unwrap_step title Ht. unwrap_step path Hp. unwrap_step (filter_description f) Hd.
  rewrite (bind_done _ _ _ _ _ (filter_patterns_ok f [] Hps)).
  unfold bind, ffi, ret, open_native, open_result.
  destruct (tinyfd_openFileDialog _ _ _ _ _ _); reflexivity.
Qed.

(** C5: a non-null native result is split on [|] in order: the segments
    join back to the decoded string and none contains [|]; native
    ["a|b|c"] gives [["a"; "b"; "c"]] and native ["a"] gives [["a"]]. *)
Theorem open_multi_splits_on_pipe title path f buf :
  has_nul title = false -> has_nul path = false -> filter_ok f = true ->
  open_native title path f true = Some buf ->
  let s := owned_string_of_ptr buf in
  snd (run (open_file_dialog_multi title path f)) = Done (Some (split PIPE s)) /\
  join PIPE (split PIPE s) = s /\
  Forall (fun seg => ~ In PIPE seg) (split PIPE s) /\
  (CStr_from_ptr buf = bytes_of "a|b|c" ->
   snd (run (open_file_dialog_multi title path f))
   = Done (Some [bytes_of "a"; bytes_of "b"; bytes_of "c"])) /\
  (CStr_from_ptr buf = bytes_of "a" ->
   snd (run (open_file_dialog_multi title path f)) = Done (Some [bytes_of "a"])).
Proof.
  intros Ht Hp Hf Hn s.
  assert (Hrun : snd (run (open_file_dialog_multi title path f))
                 = Done (Some (split PIPE s))).
  { unfold open_file_dialog_multi.
    rewrite (open_file_dialog_impl_run title path f true Ht Hp Hf), Hn. reflexivity. }
  split; [exact Hrun|]. split; [apply join_split|].
  split; [apply split_segments_sep_free|].
  split; intros Hc; rewrite Hrun; subst s; unfold owned_string_of_ptr; rewrite Hc;
    reflexivity.
Qed.

End OpenFile.

Lemma open_multi_splits_on_pipe_witness :
  let t := fixed_tfd 0 (Some (bytes_of "a|b|c")) zero_rgb in
  snd (run (open_file_dialog_multi (tfd := t) (bytes_of "Open") [] None))
  = Done (Some [bytes_of "a"; bytes_of "b"; bytes_of "c"]).
Proof.
  intros t.
  destruct (open_multi_splits_on_pipe (tfd := t) (bytes_of "Open") [] None
              (bytes_of "a|b|c") eq_refl eq_refl eq_refl eq_refl)
    as (_ & _ & _ & Habc & _).
  apply Habc. reflexivity.
Defined.

Lemma cstrings_nul xs tr :
  all_nul_free xs = false -> exists p, cstrings_unwrap xs tr = (tr, Panicked p).
Proof.
  induction xs as [|x xs IH]; simpl; [discriminate|].
  intros Hall. destruct (has_nul x) eqn:Hx; simpl in Hall.
  - destruct (unwrap_nul x tr Hx) as [p E]. exists p. exact (bind_panicked _ _ _ _ _ E).
  - destruct (IH Hall) as [p E]. exists p.
    rewrite (bind_done _ _ _ _ _ (unwrap_ok x tr Hx)).
    exact (bind_panicked _ _ _ _ _ E).
Qed.

Section OpenFileCases.
Context `{tfd : Tinyfd}.

(** Marshaling the arguments of [open_file_dialog_impl] either panics,
    the same way for both values of [multi], or succeeds. *)
Lemma open_file_dialog_impl_cases title path f :
  (exists p, forall multi,
      run (open_file_dialog_impl title path f multi) = ([], Panicked p)) \/
  (has_nul title = false /\ has_nul path = false /\ filter_ok f = true).
Proof.
  unfold run, open_file_dialog_impl.
  destruct (has_nul title) eqn:Ht.
  { left. destruct (unwrap_nul title [] Ht) as [p E]. exists p. intros multi.
    exact (bind_panicked _ _ _ _ _ E). }
  destruct (has_nul path) eqn:Hp.
  { left. destruct (unwrap_nul path [] Hp) as [p E]. exists p. intros multi.
    unwrap_step title Ht. exact (bind_panicked _ _ _ _ _ E). }
  destruct (has_nul (filter_description f)) eqn:Hd.
  { left. destruct (unwrap_nul _ [] Hd) as [p E]. exists p. intros multi.
    unwrap_step title Ht. unwrap_step path Hp. exact (bind_panicked _ _ _ _ _ E). }
  destruct (all_nul_free (filter_pats f)) eqn:Hps.
  { right. unfold filter_ok. rewrite Hd, Hps. auto. }
  left. destruct f as [[ps d]|]; [|discriminate].
  destruct (cstrings_nul ps [] Hps) as [p E]. exists p. intros multi.
  unwrap_step title Ht. unwrap_step path Hp. unwrap_step (filter_description (Some (ps, d))) Hd.
  exact (bind_panicked _ _ _ _ _ E).
Qed.

(** Both variants given the same native output. *)
Lemma open_single_multi_shape
    (Hsame : forall a b n ps d,
        tinyfd_openFileDialog a b n ps d 0 = tinyfd_openFileDialog a b n ps d 1)
    title path f :
  (exists p, snd (run (open_file_dialog title path f)) = Panicked p /\
             snd (run (open_file_dialog_multi title path f)) = Panicked p) \/
  (snd (run (open_file_dialog title path f)) = Done None /\
   snd (run (open_file_dialog_multi title path f)) = Done None) \/
  (exists s, snd (run (open_file_dialog title path f)) = Done (Some s) /\
             snd (run (open_file_dialog_multi title path f))
             = Done (Some (split PIPE s))).
Proof.
  unfold open_file_dialog_multi.
  destruct (open_file_dialog_impl_cases title path f) as [[p Hp]|(Ht & Hpath & Hf)].
  - left. exists p. unfold open_file_dialog. unfold run in *.
    rewrite (bind_panicked _ _ _ _ _ (Hp false)), (Hp true). split; reflexivity.
  - assert (Es : snd (run (open_file_dialog title path f))
                 = Done (match open_result false (open_native title path f false) with
                         | Some v => hd_error v
                         | None => None
                         end)).
    { unfold open_file_dialog, run.
      rewrite (bind_done _ _ _ _ _
                 (open_file_dialog_impl_run title path f false Ht Hpath Hf)).
      reflexivity. }
    rewrite Es, (open_file_dialog_impl_run title path f true Ht Hpath Hf).
    unfold open_native. rewrite Hsame. fold (open_native title path f true).
    destruct (open_native title path f true) as [buf|]; simpl.
    + right. right. exists (owned_string_of_ptr buf). split; reflexivity.
    + right. left. split; reflexivity.
Qed.

End OpenFileCases.

Section OpenFileClaims.
Context `{tfd : Tinyfd}.

(** C1 (amended): given the same native output, [open_file_dialog]
    returns the whole decoded native string, i.e. the [|]-join of the
    list [open_file_dialog_multi] returns (null gives absent for both);
    the single result is the first element of the multi-result exactly
    when the string contains no [|].  For arguments that reach the
    native call: a non-null native buffer gives the whole decoded string
    for [open_file_dialog] and its [|]-split for [open_file_dialog_multi];
    a null pointer gives absent for both. *)
Theorem open_single_is_whole_string
    (Hsame : forall a b n ps d,
        tinyfd_openFileDialog a b n ps d 0 = tinyfd_openFileDialog a b n ps d 1)
    title path f :
  snd (run (open_file_dialog title path f))
  = join_of (snd (run (open_file_dialog_multi title path f))) /\
  (forall s, snd (run (open_file_dialog title path f)) = Done (Some s) ->
   snd (run (open_file_dialog_multi title path f)) = Done (Some (split PIPE s)) /\
   (snd (run (open_file_dialog title path f))
    = first_of (snd (run (open_file_dialog_multi title path f)))
    <-> ~ In PIPE s)) /\
  (has_nul title = false -> has_nul path = false -> filter_ok f = true ->
   (forall buf, open_native title path f false = Some buf ->
    snd (run (open_file_dialog title path f)) = Done (Some (owned_string_of_ptr buf)) /\
    snd (run (open_file_dialog_multi title path f))
    = Done (Some (split PIPE (owned_string_of_ptr buf)))) /\
   (open_native title path f false = None ->
    snd (run (open_file_dialog title path f)) = Done None /\
    snd (run (open_file_dialog_multi title path f)) = Done None)).
Proof.
  assert (Native : has_nul title = false -> has_nul path = false -> filter_ok f = true ->
    (forall buf, open_native title path f false = Some buf ->
     snd (run (open_file_dialog title path f)) = Done (Some (owned_string_of_ptr buf)) /\
     snd (run (open_file_dialog_multi title path f))
     = Done (Some (split PIPE (owned_string_of_ptr buf)))) /\
    (open_native title path f false = None ->
     snd (run (open_file_dialog title path f)) = Done None /\
     snd (run (open_file_dialog_multi title path f)) = Done None)).
  { intros Ht Hp Hf.
    assert (Hn : open_native title path f true = open_native title path f false).
    { unfold open_native. symmetry. apply Hsame. }
    assert (Single : snd (run (open_file_dialog title path f))
                     = Done (match open_native title path f false with
                             | Some buf => Some (owned_string_of_ptr buf)
                             | None => None end)).
    { unfold open_file_dialog, run.
      rewrite (bind_done _ _ _ _ _ (open_file_dialog_impl_run title path f false Ht Hp Hf)).
      unfold open_result. destruct (open_native title path f false); reflexivity. }
    unfold open_file_dialog_multi.
    rewrite (open_file_dialog_impl_run title path f true Ht Hp Hf), Single, Hn.
    unfold open_result. simpl.
    split; intros buf E || intros E; rewrite E; split; reflexivity. }
  cut (snd (run (open_file_dialog title path f))
       = join_of (snd (run (open_file_dialog_multi title path f))) /\
       (forall s, snd (run (open_file_dialog title path f)) = Done (Some s) ->
        snd (run (open_file_dialog_multi title path f)) = Done (Some (split PIPE s)) /\
        (snd (run (open_file_dialog title path f))
         = first_of (snd (run (open_file_dialog_multi title path f)))
         <-> ~ In PIPE s))).
  { intros [H1 H2]. split; [exact H1|]. split; [exact H2|exact Native]. }
  destruct (open_single_multi_shape Hsame title path f)
    as [(p & Es & Em)|[(Es & Em)|(s & Es & Em)]];
    rewrite Es, Em; simpl.
  - split; [reflexivity|]. intros s' E. discriminate E.
  - split; [reflexivity|]. intros s' E. discriminate E.
  - rewrite join_split. split; [reflexivity|].
    intros s' E. injection E as <-. split; [reflexivity|].
    rewrite <- split_head_whole. split.
    + intros E. injection E as E. symmetry. exact E.
    + intros E. rewrite E. reflexivity.
Qed.

(** C3 (amended): [open_file_dialog_multi] yields absent exactly when
    the native pointer is null; a non-null result, even the empty
    string, yields a non-empty list, and the empty string yields [[""]]. *)
Theorem open_multi_absent_iff_null title path f :
  has_nul title = false -> has_nul path = false -> filter_ok f = true ->
  (snd (run (open_file_dialog_multi title path f)) = Done None
   <-> open_native title path f true = None) /\
  (forall buf, open_native title path f true = Some buf ->
   exists segs, snd (run (open_file_dialog_multi title path f)) = Done (Some segs)
                /\ segs <> []) /\
  (forall buf, open_native title path f true = Some buf -> CStr_from_ptr buf = [] ->
   snd (run (open_file_dialog_multi title path f)) = Done (Some [[]])).
Proof.
  intros Ht Hp Hf. unfold open_file_dialog_multi.
  rewrite (open_file_dialog_impl_run title path f true Ht Hp Hf). simpl.
  split; [|split].
  - destruct (open_native title path f true); split; intros E;
      solve [reflexivity | discriminate E].
  - intros buf E. rewrite E. exists (split PIPE (owned_string_of_ptr buf)).
    split; [reflexivity|apply split_not_nil].
  - intros buf E Hc. rewrite E. unfold open_result, owned_string_of_ptr.
    rewrite Hc. reflexivity.
Qed.

End OpenFileClaims.

(** C1: a native result holding [|] is returned whole by the single
    variant, while the multi variant's first element stops at the [|]. *)
Lemma open_single_not_first_of_multi :
  let t := fixed_tfd 0 (Some (bytes_of "a|b")) zero_rgb in
  snd (run (open_file_dialog (tfd := t) (bytes_of "Open") [] None))
  = Done (Some (bytes_of "a|b")) /\
  snd (run (open_file_dialog_multi (tfd := t) (bytes_of "Open") [] None))
  = Done (Some [bytes_of "a"; bytes_of "b"]) /\
  snd (run (open_file_dialog (tfd := t) (bytes_of "Open") [] None))
  <> first_of (snd (run (open_file_dialog_multi (tfd := t) (bytes_of "Open") [] None))).
Proof. split; [reflexivity|split; [reflexivity|vm_compute; discriminate]]. Qed.

Lemma open_single_is_whole_string_witness :
  let t := fixed_tfd 0 (Some (bytes_of "a|b")) zero_rgb in
  snd (run (open_file_dialog (tfd := t) (bytes_of "Open") [] None))
  = join_of (snd (run (open_file_dialog_multi (tfd := t) (bytes_of "Open") [] None))).
Proof.
  intros t.
  exact (proj1 (open_single_is_whole_string (tfd := t)
                  (fun _ _ _ _ _ => eq_refl) (bytes_of "Open") [] None)).
Defined.

(** C3: a non-null empty native string gives a list, not absent. *)
Lemma open_multi_empty_native_is_list :
  let t := fixed_tfd 0 (Some [x00]) zero_rgb in
  snd (run (open_file_dialog_multi (tfd := t) (bytes_of "Open") [] None))
  = Done (Some [[]]) /\
  snd (run (open_file_dialog_multi (tfd := t) (bytes_of "Open") [] None)) <> Done None.
Proof. split; [reflexivity|vm_compute; discriminate]. Qed.

Lemma open_multi_absent_iff_null_witness :
  let t := fixed_tfd 0 None zero_rgb in
  snd (run (open_file_dialog_multi (tfd := t) (bytes_of "Open") [] None)) = Done None.
Proof.
  intros t.
  destruct (open_multi_absent_iff_null (tfd := t) (bytes_of "Open") [] None
              eq_refl eq_refl eq_refl) as [Hiff _].
  apply Hiff. reflexivity.
Defined.

Section ListDialog.
Context `{tfd : Tinyfd}.

Lemma list_dialog_run title columns cells :
  has_nul title = false -> columns <> [] -> all_nul_free columns = true ->
  all_nul_free (unwrap_or cells []) = true ->
  let cs := unwrap_or cells [] in
  let ncols := as_c_int (length columns) in
  let nrows := as_c_int (length cs / length columns) in
  run (list_dialog NotWindows title columns cells)
  = ([EvArrayDialog title ncols columns nrows cs],
     Done (decode_result (tinyfd_arrayDialog title ncols columns nrows cs))).
Proof.
  intros Ht Hne Hcols Hcells cs ncols nrows.
  unfold run, list_dialog, list_dialog_impl. unwrap_step title Ht.
  destruct columns as [|c0 cols]; [congruence|].
  rewrite (bind_done _ _ _ _ _ (cstrings_ok _ [] Hcols)).
  assert (Hc : (match cells with Some cs => cstrings_unwrap cs | None => ret [] end) []
               = ([], Done cs)).
  { subst cs. destruct cells as [cs0|]; [exact (cstrings_ok _ [] Hcells)|reflexivity]. }
  rewrite (bind_done _ _ _ _ _ Hc). reflexivity.
Qed.

(** C2 (amended): with no columns [list_dialog] never calls the native
    library; off Windows it returns absent (after marshaling the title,
    which panics when the title holds a NUL byte, reporting the
    title); on Windows [list_dialog] is [unimplemented!] and panics for
    every input. *)
Theorem list_dialog_no_columns title cells columns :
  fst (run (list_dialog Windows title [] cells)) = [] /\
  fst (run (list_dialog NotWindows title [] cells)) = [] /\
  (has_nul title = false ->
   snd (run (list_dialog NotWindows title [] cells)) = Done None) /\
  (has_nul title = true ->
   exists p, run (list_dialog NotWindows title [] cells)
             = ([], Panicked (UnwrapNulError (NulError p title)))) /\
  run (list_dialog Windows title columns cells) = ([], Panicked Unimplemented).
Proof.
  split; [reflexivity|]. split; [|split; [|split; [|reflexivity]]].
  - unfold run, list_dialog, list_dialog_impl, bind, cstring_new_unwrap.
    destruct (CString_new title); reflexivity.
  - intros Ht. unfold run, list_dialog, list_dialog_impl. unwrap_step title Ht.
    reflexivity.
  - intros Ht. unfold run, list_dialog, list_dialog_impl, bind, cstring_new_unwrap,
      CString_new.
    destruct (nul_position_some title Ht) as [p Hp]. rewrite Hp.
    exists p. reflexivity.
Qed.

(** C9 (amended): off Windows, with columns, the row count passed to the
    native call is the floor quotient of the cell count by the column
    count, cast with [as c_int] (the quotient itself below 2^31), with
    no check that the cells fill whole rows; absent cells give 0 rows. *)
Theorem list_dialog_row_count title columns cells :
  has_nul title = false -> columns <> [] -> all_nul_free columns = true ->
  all_nul_free (unwrap_or cells []) = true ->
  let cs := unwrap_or cells [] in
  let rows := (length cs / length columns)%nat in
  fst (run (list_dialog NotWindows title columns cells))
  = [EvArrayDialog title (as_c_int (length columns)) columns (as_c_int rows) cs] /\
  (Z.of_nat rows < 2 ^ 31 -> as_c_int rows = Z.of_nat rows) /\
  (cells = None -> as_c_int rows = 0).
Proof.
  intros Ht Hne Hcols Hcells cs rows.
  split; [|split].
  - rewrite (list_dialog_run title columns cells Ht Hne Hcols Hcells). reflexivity.
  - intros Hlt. unfold as_c_int.
    rewrite Z.mod_small by lia.
    destruct (Z.ltb_spec (Z.of_nat rows) (2 ^ 31)); [reflexivity|lia].
  - intros ->. subst rows cs. simpl.
    destruct columns as [|c0 cols]; [congruence|reflexivity].
Qed.

End ListDialog.

(** C2: on Windows an empty column list does not give absent: the call
    panics. *)
Lemma list_dialog_windows_panics :
  run (list_dialog (tfd := fixed_tfd 0 None zero_rgb) Windows (bytes_of "Test") [] None)
  = ([], Panicked Unimplemented).
Proof. reflexivity. Qed.

Lemma list_dialog_no_columns_witness :
  snd (run (list_dialog (tfd := fixed_tfd 0 (Some []) zero_rgb) NotWindows
              (bytes_of "Test Dialog") [] (Some [bytes_of "471"])))
  = Done None.
Proof.
  destruct (list_dialog_no_columns (tfd := fixed_tfd 0 (Some []) zero_rgb)
              (bytes_of "Test Dialog") (Some [bytes_of "471"]) [])
    as (_ & _ & Hnw & _).
  apply Hnw. reflexivity.
Defined.

Lemma list_dialog_row_count_witness :
  fst (run (list_dialog (tfd := fixed_tfd 0 None zero_rgb) NotWindows (bytes_of "Test")
              [bytes_of "Id"; bytes_of "Name"]
              (Some [bytes_of "471"; bytes_of "Donald Duck"; bytes_of "1143"])))
  = [EvArrayDialog (bytes_of "Test") 2 [bytes_of "Id"; bytes_of "Name"] 1
       [bytes_of "471"; bytes_of "Donald Duck"; bytes_of "1143"]].
Proof.
  destruct (list_dialog_row_count (tfd := fixed_tfd 0 None zero_rgb) (bytes_of "Test")
              [bytes_of "Id"; bytes_of "Name"]
              (Some [bytes_of "471"; bytes_of "Donald Duck"; bytes_of "1143"])
              eq_refl ltac:(discriminate) eq_refl eq_refl) as [Hev _].
  exact Hev.
Defined.

Lemma all_nul_free_repeat s n : has_nul s = false -> all_nul_free (repeat s n) = true.
Proof.
  intros Hs. induction n as [|n IH]; [reflexivity|].
  simpl. rewrite Hs. exact IH.
Qed.

Lemma list_dialog_empty_cells_event n :
  fst (run (list_dialog (tfd := fixed_tfd 0 None zero_rgb) NotWindows (bytes_of "t")
              [bytes_of "Id"] (Some (repeat [] n))))
  = [EvArrayDialog (bytes_of "t") 1 [bytes_of "Id"] (as_c_int n) (repeat [] n)].
Proof.
  rewrite (list_dialog_run (tfd := fixed_tfd 0 None zero_rgb) (bytes_of "t")
             [bytes_of "Id"] (Some (repeat [] n)) eq_refl ltac:(discriminate) eq_refl
             (all_nul_free_repeat [] n eq_refl)).
  cbn [fst unwrap_or]. rewrite repeat_length.
  change (length [bytes_of "Id"]) with 1%nat. rewrite Nat.div_1_r. reflexivity.
Qed.

Lemma as_c_int_2_31 : as_c_int (Nat.pow 2 31) = - 2 ^ 31.
Proof. unfold as_c_int. rewrite Nat2Z.inj_pow. vm_compute. reflexivity. Qed.

(** C9: with 2^31 cells and one column the [as c_int] cast wraps: the
    native call receives -2^31 rows, not the quotient 2^31. *)
Lemma list_dialog_rows_wrap :
  fst (run (list_dialog (tfd := fixed_tfd 0 None zero_rgb) NotWindows (bytes_of "t")
              [bytes_of "Id"] (Some (repeat [] (Nat.pow 2 31)))))
  = [EvArrayDialog (bytes_of "t") 1 [bytes_of "Id"] (- 2 ^ 31)
       (repeat [] (Nat.pow 2 31))] /\
  - 2 ^ 31 <> Z.of_nat (length (repeat (@nil byte) (Nat.pow 2 31))
                        / length [bytes_of "Id"]).
Proof.
  split.
  - rewrite list_dialog_empty_cells_event, as_c_int_2_31. reflexivity.
  - rewrite repeat_length. change (length [bytes_of "Id"]) with 1%nat.
    rewrite Nat.div_1_r, Nat2Z.inj_pow. vm_compute. discriminate.
Qed.

(** ** UTF-8 validity ([core::str::from_utf8] succeeds) *)

Lemma valid_replacement l :
  valid_utf8 (REPLACEMENT_CHARACTER ++ l) = valid_utf8 l.
Proof. reflexivity. Qed.

(** [from_utf8_lossy] always yields a valid UTF-8 string. *)
Lemma from_utf8_lossy_valid l : valid_utf8 (from_utf8_lossy l) = true.
Proof.
  remember (length l) as n eqn:Hn. assert (Hle : (length l <= n)%nat) by lia.
  clear Hn. revert l Hle.
  induction n as [n IH] using lt_wf_ind. intros l Hle.
  destruct l as [|b rest]; [reflexivity|]. simpl in Hle.
  assert (IH' : forall l', (length l' < S (length rest))%nat ->
                 valid_utf8 (from_utf8_lossy l') = true).
  { intros l' Hl'. apply (IH (length l')); lia. }
  clear IH Hle. cbn [from_utf8_lossy].
  destruct (utf8_char_width b) as [|[|[|[|[|w]]]]] eqn:Hw;
    try (rewrite valid_replacement; apply IH'; simpl; lia).
  - simpl. rewrite Hw. apply IH'. lia.
  - destruct rest as [|c rest2]; [reflexivity|].
    destruct (is_cont c) eqn:Hc; [|rewrite valid_replacement; apply IH'; simpl; lia].
    simpl. rewrite Hw, Hc. apply IH'. simpl. lia.
  - destruct rest as [|c rest2]; [reflexivity|].
    destruct (second_ok3 b c) eqn:H2; [|rewrite valid_replacement; apply IH'; simpl; lia].
    destruct rest2 as [|d rest3]; [reflexivity|].
    destruct (is_cont d) eqn:Hd; [|rewrite valid_replacement; apply IH'; simpl; lia].
    simpl. rewrite Hw, H2, Hd. apply IH'. simpl. lia.
  - destruct rest as [|c rest2]; [reflexivity|].
    destruct (second_ok4 b c) eqn:H2; [|rewrite valid_replacement; apply IH'; simpl; lia].
    destruct rest2 as [|d rest3]; [reflexivity|].
    destruct (is_cont d) eqn:Hd; [|rewrite valid_replacement; apply IH'; simpl; lia].
    destruct rest3 as [|e rest4]; [reflexivity|].
    destruct (is_cont e) eqn:He; [|rewrite valid_replacement; apply IH'; simpl; lia].
    simpl. rewrite Hw, H2, Hd, He. apply IH'. simpl. lia.
Qed.

(** On valid UTF-8 the decoder copies its input. *)
Lemma from_utf8_lossy_id l : valid_utf8 l = true -> from_utf8_lossy l = l.
Proof.
  remember (length l) as n eqn:Hn. assert (Hle : (length l <= n)%nat) by lia.
  clear Hn. revert l Hle.
  induction n as [n IH] using lt_wf_ind. intros l Hle Hv.
  destruct l as [|b rest]; [reflexivity|]. simpl in Hle.
  assert (IH' : forall l', (length l' < S (length rest))%nat -> valid_utf8 l' = true ->
                 from_utf8_lossy l' = l').
  { intros l' Hl'. apply (IH (length l')); lia. }
  clear IH Hle. simpl in Hv. cbn [from_utf8_lossy].
  destruct (utf8_char_width b) as [|[|[|[|[|w]]]]] eqn:Hw; try discriminate Hv.
  - rewrite IH' by (simpl; lia || exact Hv). reflexivity.
  - destruct rest as [|c rest2]; [discriminate Hv|].
    apply andb_true_iff in Hv as [Hc Hv]. rewrite Hc, IH' by (simpl; lia || exact Hv).
    reflexivity.
  - destruct rest as [|c [|d rest3]]; try discriminate Hv.
    apply andb_true_iff in Hv as [Hv Hr]. apply andb_true_iff in Hv as [H2 Hd].
    rewrite H2, Hd, IH' by (simpl; lia || exact Hr). reflexivity.
  - destruct rest as [|c [|d [|e rest4]]]; try discriminate Hv.
    apply andb_true_iff in Hv as [Hv Hr]. apply andb_true_iff in Hv as [Hv He].
    apply andb_true_iff in Hv as [H2 Hd].
    rewrite H2, Hd, He, IH' by (simpl; lia || exact Hr). reflexivity.
Qed.

Section Decoding.
Context `{tfd : Tinyfd}.

Lemma save_file_dialog_impl_run title path f :
  has_nul title = false -> has_nul path = false -> filter_ok f = true ->
  let n := as_c_int (length (filter_pats f)) in
  run (save_file_dialog_impl title path f)
  = ([EvSaveFileDialog title path n (filter_pats f) (filter_description f)],
     Done (decode_result (tinyfd_saveFileDialog title path n (filter_pats f)
                            (filter_description f)))).
Proof.
  intros Ht Hp Hf n. apply andb_true_iff in Hf as [Hd Hps].
  apply negb_true_iff in Hd.
  unfold run, save_file_dialog_impl.
  unwrap_step title Ht. unwrap_step path Hp. unwrap_step (filter_description f) Hd.
  rewrite (bind_done _ _ _ _ _ (filter_patterns_ok f [] Hps)). reflexivity.
Qed.

Lemma select_folder_dialog_run title path :
  has_nul title = false -> has_nul path = false ->
  run (select_folder_dialog title path)
  = ([EvSelectFolderDialog title path],
     Done (decode_result (tinyfd_selectFolderDialog title path))).
Proof.
  intros Ht Hp. unfold run, select_folder_dialog.
  unwrap_step title Ht. unwrap_step path Hp. reflexivity.
Qed.

(** C10: once a string-returning operation gets a non-null pointer from
    the native call, it returns a present result: the bytes up to the
    NUL, decoded by [from_utf8_lossy], which always yields valid UTF-8
    and keeps valid UTF-8 input unchanged. *)
Theorem non_null_native_result_decoded title message path f buf :
  has_nul title = false -> has_nul message = false ->
  has_nul path = false -> filter_ok f = true ->
  valid_utf8 (owned_string_of_ptr buf) = true /\
  (valid_utf8 (CStr_from_ptr buf) = true ->
   owned_string_of_ptr buf = CStr_from_ptr buf) /\
  (forall default, has_nul (unwrap_or default []) = false ->
   tinyfd_inputBox title message DanglingPtr = Some buf ->
   snd (run (input_box title message default)) = Done (Some (owned_string_of_ptr buf))) /\
  (tinyfd_inputBox title message NullPtr = Some buf ->
   snd (run (password_box title message)) = Done (Some (owned_string_of_ptr buf))) /\
  (tinyfd_saveFileDialog title path (as_c_int (length (filter_pats f))) (filter_pats f)
     (filter_description f) = Some buf ->
   snd (run (save_file_dialog_impl title path f))
   = Done (Some (owned_string_of_ptr buf))) /\
  (open_native title path f false = Some buf ->
   snd (run (open_file_dialog title path f)) = Done (Some (owned_string_of_ptr buf))) /\
  (open_native title path f true = Some buf ->
   snd (run (open_file_dialog_multi title path f))
   = Done (Some (split PIPE (owned_string_of_ptr buf)))) /\
  (tinyfd_selectFolderDialog title path = Some buf ->
   snd (run (select_folder_dialog title path)) = Done (Some (owned_string_of_ptr buf))) /\
  (forall columns cells,
   columns <> [] -> all_nul_free columns = true ->
   all_nul_free (unwrap_or cells []) = true ->
   tinyfd_arrayDialog title (as_c_int (length columns)) columns
     (as_c_int (length (unwrap_or cells []) / length columns))
     (unwrap_or cells []) = Some buf ->
   snd (run (list_dialog NotWindows title columns cells))
   = Done (Some (owned_string_of_ptr buf))) /\
  (forall default out,
   all_nul_free (match default with Hex h => [h] | RGB _ => [] end) = true ->
   tinyfd_colorChooser title (match default with Hex _ => DanglingPtr | RGB _ => NullPtr end)
     (match default with Hex _ => zero_rgb | RGB c => c end) zero_rgb
   = (Some buf, out) ->
   snd (run (color_chooser_dialog title default))
   = Done (Some (owned_string_of_ptr buf, out))).
Proof.
  intros Ht Hm Hp Hf.
  split; [apply from_utf8_lossy_valid|].
  split; [intros Hv; exact (from_utf8_lossy_id _ Hv)|].
  split.
  { intros default Hd E. unfold input_box.
    replace (match default with Some d => Some d | None => Some [] end)
      with (Some (unwrap_or default [])) by (destruct default; reflexivity).
    rewrite (input_box_impl_run title message (Some (unwrap_or default [])) Ht Hm)
      by (simpl; rewrite Hd; reflexivity).
    simpl. rewrite E. reflexivity. }
  split.
  { intros E. unfold password_box.
    rewrite (input_box_impl_run title message None Ht Hm eq_refl). simpl.
    rewrite E. reflexivity. }
  split.
  { intros E. rewrite (save_file_dialog_impl_run title path f Ht Hp Hf). simpl.
    rewrite E. reflexivity. }
  split.
  { intros E. unfold open_file_dialog, run.
    rewrite (bind_done _ _ _ _ _ (open_file_dialog_impl_run title path f false Ht Hp Hf)).
    rewrite E. reflexivity. }
  split.
  { intros E. unfold open_file_dialog_multi.
    rewrite (open_file_dialog_impl_run title path f true Ht Hp Hf), E. reflexivity. }
  split.
  { intros E. rewrite (select_folder_dialog_run title path Ht Hp). simpl.
    rewrite E. reflexivity. }
  split.
  { intros columns cells Hne Hcols Hcells E.
    rewrite (list_dialog_run title columns cells Ht Hne Hcols Hcells). simpl.
    rewrite E. reflexivity. }
  { intros default out Hd E.
    rewrite (color_chooser_run title default Ht Hd). cbn -[owned_string_of_ptr zero_rgb].
    destruct default; rewrite E; reflexivity. }
Qed.

End Decoding.

Lemma non_null_native_result_decoded_witness :
  let t := fixed_tfd 0 (Some [x61; xff; x00; x62]) zero_rgb in
  snd (run (select_folder_dialog (tfd := t) (bytes_of "Select folder") []))
  = Done (Some ([x61] ++ REPLACEMENT_CHARACTER)).
Proof.
  intros t.
  destruct (non_null_native_result_decoded (tfd := t) (bytes_of "Select folder")
              [] [] None [x61; xff; x00; x62] eq_refl eq_refl eq_refl eq_refl)
    as (_ & _ & _ & _ & _ & _ & _ & Hsel & _).
  rewrite (Hsel eq_refl). reflexivity.
Defined.

(** ** Further properties of the binding layer *)

Section Extras.
Context `{tfd : Tinyfd}.

(** X1: [message_box] passes the kind's and the icon's names and the
    default button's [#[repr(i32)]] value to the native call; the names
    differ for different kinds and icons; and a native reply equal to a
    button's value gives back that button. *)
Theorem message_box_marshaling kind title message icon default_button :
  has_nul title = false -> has_nul message = false ->
  fst (run (message_box kind title message icon default_button))
  = [EvMessageBox title message (MessageBox_to_str kind)
       (Icon_to_str (unwrap_or icon Info))
       (BoxButton_as_i32 (unwrap_or default_button OkYes))] /\
  (forall b, message_box_code kind title message icon default_button
             = BoxButton_as_i32 b ->
   snd (run (message_box kind title message icon default_button)) = Done b) /\
  (forall k', MessageBox_to_str k' = MessageBox_to_str kind -> k' = kind) /\
  (forall i', Icon_to_str i' = Icon_to_str (unwrap_or icon Info) -> i' = unwrap_or icon Info).
Proof.
  intros Ht Hm.
  rewrite (message_box_run kind title message icon default_button Ht Hm).
  split; [reflexivity|]. split; [|split].
  - intros b E. cbv zeta. cbn [snd]. rewrite E. destruct b; reflexivity.
  - intros k' E. destruct k', kind; solve [reflexivity | discriminate E].
  - intros i' E. destruct i', (unwrap_or icon Info); solve [reflexivity | discriminate E].
Qed.

(** X2: the variants without a filter are the variants with an empty
    pattern list and an empty description. *)
Theorem no_filter_is_empty_filter title path :
  save_file_dialog title path = save_file_dialog_with_filter title path [] [] /\
  open_file_dialog title path None = open_file_dialog title path (Some ([], [])) /\
  open_file_dialog_multi title path None
  = open_file_dialog_multi title path (Some ([], [])).
Proof. split; [|split]; reflexivity. Qed.

(** X3: the save and open dialogs pass the patterns in order with their
    count cast to [c_int] and the description; the single open dialog
    asks for one file (flag 0), the multi dialog for several (flag 1);
    without a filter no pattern and an empty description are passed. *)
Theorem file_dialog_native_arguments title path pats description :
  has_nul title = false -> has_nul path = false ->
  has_nul description = false -> all_nul_free pats = true ->
  let f := Some (pats, description) in
  let n := as_c_int (length pats) in
  fst (run (save_file_dialog_with_filter title path pats description))
  = [EvSaveFileDialog title path n pats description] /\
  fst (run (save_file_dialog title path)) = [EvSaveFileDialog title path 0 [] []] /\
  fst (run (open_file_dialog title path f))
  = [EvOpenFileDialog title path n pats description 0] /\
  fst (run (open_file_dialog_multi title path f))
  = [EvOpenFileDialog title path n pats description 1] /\
  fst (run (open_file_dialog title path None)) = [EvOpenFileDialog title path 0 [] [] 0] /\
  fst (run (open_file_dialog_multi title path None))
  = [EvOpenFileDialog title path 0 [] [] 1].
Proof.
  intros Ht Hp Hd Hps f n.
  assert (Hf : filter_ok f = true).
  { unfold filter_ok. simpl. rewrite Hd, Hps. reflexivity. }
  assert (Single : forall g, filter_ok g = true ->
            fst (run (open_file_dialog title path g))
            = [EvOpenFileDialog title path (as_c_int (length (filter_pats g)))
                 (filter_pats g) (filter_description g) 0]).
  { intros g Hg. unfold open_file_dialog, run.
    rewrite (bind_done _ _ _ _ _ (open_file_dialog_impl_run title path g false Ht Hp Hg)).
    reflexivity. }
  split; [|split; [|split; [|split; [|split]]]].
  - unfold save_file_dialog_with_filter.
    rewrite (save_file_dialog_impl_run title path f Ht Hp Hf). reflexivity.
  - unfold save_file_dialog.
    rewrite (save_file_dialog_impl_run title path None Ht Hp eq_refl). reflexivity.
  - exact (Single f Hf).
  - unfold open_file_dialog_multi.
    rewrite (open_file_dialog_impl_run title path f true Ht Hp Hf). reflexivity.
  - exact (Single None eq_refl).
  - unfold open_file_dialog_multi.
    rewrite (open_file_dialog_impl_run title path None true Ht Hp eq_refl). reflexivity.
Qed.

(** X4: a null native pointer gives an absent result for every
    string-returning operation. *)
Theorem null_native_result_absent title message path f default :
  has_nul title = false -> has_nul message = false ->
  has_nul path = false -> filter_ok f = true ->
  (has_nul (unwrap_or default []) = false ->
   tinyfd_inputBox title message DanglingPtr = None ->
   snd (run (input_box title message default)) = Done None) /\
  (tinyfd_inputBox title message NullPtr = None ->
   snd (run (password_box title message)) = Done None) /\
  (tinyfd_saveFileDialog title path (as_c_int (length (filter_pats f))) (filter_pats f)
     (filter_description f) = None ->
   snd (run (save_file_dialog_impl title path f)) = Done None) /\
  (open_native title path f false = None ->
   snd (run (open_file_dialog title path f)) = Done None) /\
  (open_native title path f true = None ->
   snd (run (open_file_dialog_multi title path f)) = Done None) /\
  (tinyfd_selectFolderDialog title path = None ->
   snd (run (select_folder_dialog title path)) = Done None) /\
  (forall columns cells,
   columns <> [] -> all_nul_free columns = true ->
   all_nul_free (unwrap_or cells []) = true ->
   tinyfd_arrayDialog title (as_c_int (length columns)) columns
     (as_c_int (length (unwrap_or cells []) / length columns))
     (unwrap_or cells []) = None ->
   snd (run (list_dialog NotWindows title columns cells)) = Done None) /\
  (forall color out,
   all_nul_free (match color with Hex h => [h] | RGB _ => [] end) = true ->
   tinyfd_colorChooser title (match color with Hex _ => DanglingPtr | RGB _ => NullPtr end)
     (match color with Hex _ => zero_rgb | RGB c => c end) zero_rgb = (None, out) ->
   snd (run (color_chooser_dialog title color)) = Done None).
Proof.
  intros Ht Hm Hp Hf.
  split.
  { intros Hd E. unfold input_box.
    replace (match default with Some d => Some d | None => Some [] end)
      with (Some (unwrap_or default [])) by (destruct default; reflexivity).
    rewrite (input_box_impl_run title message (Some (unwrap_or default [])) Ht Hm)
      by (simpl; rewrite Hd; reflexivity).
    simpl. rewrite E. reflexivity. }
  split.
  { intros E. unfold password_box.
    rewrite (input_box_impl_run title message None Ht Hm eq_refl). simpl.
    rewrite E. reflexivity. }
  split.
  { intros E. rewrite (save_file_dialog_impl_run title path f Ht Hp Hf). simpl.
    rewrite E. reflexivity. }
  split.
  { intros E. unfold open_file_dialog, run.
    rewrite (bind_done _ _ _ _ _ (open_file_dialog_impl_run title path f false Ht Hp Hf)).
    rewrite E. reflexivity. }
  split.
  { intros E. unfold open_file_dialog_multi.
    rewrite (open_file_dialog_impl_run title path f true Ht Hp Hf), E. reflexivity. }
  split.
  { intros E. rewrite (select_folder_dialog_run title path Ht Hp). simpl.
    rewrite E. reflexivity. }
  split.
  { intros columns cells Hne Hcols Hcells E.
    rewrite (list_dialog_run title columns cells Ht Hne Hcols Hcells). simpl.
    rewrite E. reflexivity. }
  { intros color out Hd E.
    rewrite (color_chooser_run title color Ht Hd). cbn -[owned_string_of_ptr zero_rgb].
    destruct color; rewrite E; reflexivity. }
Qed.

End Extras.

Lemma message_box_marshaling_witness :
  let t := fixed_tfd 0 None zero_rgb in
  snd (run (message_box (tfd := t) YesNo (bytes_of "t") (bytes_of "m") (Some Question) None))
  = Done CancelNo.
Proof.
  intros t.
  destruct (message_box_marshaling (tfd := t) YesNo (bytes_of "t") (bytes_of "m")
              (Some Question) None eq_refl eq_refl) as (_ & H & _).
  apply (H CancelNo). reflexivity.
Defined.

Lemma file_dialog_native_arguments_witness :
  let t := fixed_tfd 0 None zero_rgb in
  fst (run (open_file_dialog_multi (tfd := t) (bytes_of "t") []
              (Some ([bytes_of "*.txt"; bytes_of "*.md"], bytes_of "text"))))
  = [EvOpenFileDialog (bytes_of "t") [] 2 [bytes_of "*.txt"; bytes_of "*.md"]
       (bytes_of "text") 1].
Proof.
  intros t.
  destruct (file_dialog_native_arguments (tfd := t) (bytes_of "t") []
              [bytes_of "*.txt"; bytes_of "*.md"] (bytes_of "text")
              eq_refl eq_refl eq_refl eq_refl) as (_ & _ & _ & H & _).
  exact H.
Defined.

Lemma null_native_result_absent_witness :
  let t := fixed_tfd 0 None zero_rgb in
  snd (run (password_box (tfd := t) (bytes_of "t") (bytes_of "m"))) = Done None.
Proof.
  intros t.
  destruct (null_native_result_absent (tfd := t) (bytes_of "t") (bytes_of "m") []
              None None eq_refl eq_refl eq_refl eq_refl) as (_ & H & _).
  exact (H eq_refl).
Defined.

Lemma panics_cstrings xs :
  all_nul_free xs = false -> panics_before_ffi (cstrings_unwrap xs).
Proof. intros H. destruct (cstrings_nul xs [] H) as [p E]. exists p. exact E. Qed.

Lemma panics_after_unwrap {B} s (k : cstring -> M B) :
  has_nul s = false -> panics_before_ffi (k s) ->
  panics_before_ffi (bind (cstring_new_unwrap s) k).
Proof. intros Hs Hk. eapply panics_after_done; [exact (unwrap_ok s [] Hs)|exact Hk]. Qed.

Lemma panics_after_cstrings {B} xs (k : list cstring -> M B) :
  all_nul_free xs = true -> panics_before_ffi (k xs) ->
  panics_before_ffi (bind (cstrings_unwrap xs) k).
Proof. intros Hs Hk. eapply panics_after_done; [exact (cstrings_ok xs [] Hs)|exact Hk]. Qed.

(** Panics of the first two [CString::new(..).unwrap()] of a chain:
    either the first argument or, after it, the second. *)
Lemma panics_first_or_second {B} s1 s2 (k : cstring -> cstring -> M B) :
  has_nul s2 = true ->
  panics_before_ffi (c1 <- cstring_new_unwrap s1;; c2 <- cstring_new_unwrap s2;; k c1 c2).
Proof.
  intros H2. destruct (has_nul s1) eqn:H1.
  - apply panics_bind, panics_unwrap, H1.
  - apply panics_after_unwrap; [exact H1|]. apply panics_bind, panics_unwrap, H2.
Qed.

(** The filter's description and patterns are converted after the title
    and the path, and each of them may panic. *)
Lemma panics_in_filter {B} title path f (k : cstring -> cstring -> cstring -> list cstring -> M B) :
  filter_ok f = false ->
  panics_before_ffi (c1 <- cstring_new_unwrap title;; c2 <- cstring_new_unwrap path;;
                     c3 <- cstring_new_unwrap (filter_description f);;
                     ps <- filter_patterns f;; k c1 c2 c3 ps).
Proof.
  intros Hf. destruct (has_nul title) eqn:H1.
  { apply panics_bind, panics_unwrap, H1. }
  apply panics_after_unwrap; [exact H1|].
  destruct (has_nul path) eqn:H2.
  { apply panics_bind, panics_unwrap, H2. }
  apply panics_after_unwrap; [exact H2|].
  unfold filter_ok in Hf.
  destruct (has_nul (filter_description f)) eqn:H3.
  { apply panics_bind, panics_unwrap, H3. }
  apply panics_after_unwrap; [exact H3|].
  simpl in Hf. destruct f as [[ps d]|]; simpl in Hf |- *; [|discriminate].
  apply panics_bind, panics_cstrings, Hf.
Qed.

Section ExtrasNul.
Context `{tfd : Tinyfd}.

(** X5: a NUL byte in the path makes the save, open and folder dialogs
    panic before the native call, and so does a NUL byte in the filter's
    description or in one of its patterns for the save and open
    dialogs, whatever the other arguments. *)
Theorem file_dialog_nul_argument_panics title path pats description f :
  (has_nul path = true ->
     panics_before_ffi (save_file_dialog_with_filter title path pats description) /\
     panics_before_ffi (save_file_dialog title path) /\
     panics_before_ffi (open_file_dialog title path f) /\
     panics_before_ffi (open_file_dialog_multi title path f) /\
     panics_before_ffi (select_folder_dialog title path)) /\
  (filter_ok (Some (pats, description)) = false ->
     panics_before_ffi (save_file_dialog_with_filter title path pats description)) /\
  (filter_ok f = false ->
     panics_before_ffi (open_file_dialog title path f) /\
     panics_before_ffi (open_file_dialog_multi title path f)).
Proof.
  split; [|split].
  - intros Hp.
    unfold save_file_dialog_with_filter, save_file_dialog, save_file_dialog_impl,
      open_file_dialog, open_file_dialog_multi, open_file_dialog_impl,
      select_folder_dialog.
    repeat split;
      first [ apply panics_first_or_second; exact Hp
            | apply panics_bind, panics_first_or_second; exact Hp ].
  - intros Hf. apply panics_in_filter, Hf.
  - intros Hf. unfold open_file_dialog, open_file_dialog_multi, open_file_dialog_impl.
    split; [apply panics_bind|]; apply panics_in_filter, Hf.
Qed.

(** X6: a NUL byte in the default text of [input_box], in a column of
    [list_dialog] (outside Windows), in a cell when there are columns,
    or in the hex default of [color_chooser_dialog] makes the call panic
    before the native library is reached. *)
Theorem other_nul_argument_panics title message d columns (cells : option (list str))
    (cs : list str) hex :
  (has_nul d = true -> panics_before_ffi (input_box title message (Some d))) /\
  (all_nul_free columns = false ->
     panics_before_ffi (list_dialog NotWindows title columns cells)) /\
  (columns <> [] -> all_nul_free cs = false ->
     panics_before_ffi (list_dialog NotWindows title columns (Some cs))) /\
  (has_nul hex = true -> panics_before_ffi (color_chooser_dialog title (Hex hex))).
Proof.
  split; [|split; [|split]].
  - intros Hd. unfold input_box, input_box_impl.
    destruct (has_nul title) eqn:H1; [apply panics_bind, panics_unwrap, H1|].
    apply panics_after_unwrap; [exact H1|].
    destruct (has_nul message) eqn:H2; [apply panics_bind, panics_unwrap, H2|].
    apply panics_after_unwrap; [exact H2|].
    apply panics_bind, panics_bind, panics_unwrap, Hd.
  - intros Hc. unfold list_dialog, list_dialog_impl.
    destruct (has_nul title) eqn:H1; [apply panics_bind, panics_unwrap, H1|].
    apply panics_after_unwrap; [exact H1|].
    destruct columns as [|c0 cols]; [discriminate Hc|].
    apply panics_bind, panics_cstrings, Hc.
  - intros Hne Hc. unfold list_dialog, list_dialog_impl.
    destruct (has_nul title) eqn:H1; [apply panics_bind, panics_unwrap, H1|].
    apply panics_after_unwrap; [exact H1|].
    destruct columns as [|c0 cols]; [congruence|].
    destruct (all_nul_free (c0 :: cols)) eqn:Hcols.
    + apply panics_after_cstrings; [exact Hcols|].
      apply panics_bind, panics_cstrings, Hc.
    + apply panics_bind, panics_cstrings, Hcols.
  - intros Hh. unfold color_chooser_dialog.
    destruct (has_nul title) eqn:H1; [apply panics_bind, panics_unwrap, H1|].
    apply panics_after_unwrap; [exact H1|].
    apply panics_bind, panics_bind, panics_unwrap, Hh.
Qed.

End ExtrasNul.

Lemma file_dialog_nul_argument_panics_witness :
  let t := fixed_tfd 0 None zero_rgb in
  panics_before_ffi (open_file_dialog_multi (tfd := t) (bytes_of "t") []
                       (Some ([bytes_of "*.c"; [x2a; x00]], bytes_of "C"))).
Proof.
  intros t.
  destruct (file_dialog_nul_argument_panics (tfd := t) (bytes_of "t") [] [] []
              (Some ([bytes_of "*.c"; [x2a; x00]], bytes_of "C"))) as (_ & _ & H).
  exact (proj2 (H eq_refl)).
Defined.

Lemma other_nul_argument_panics_witness :
  let t := fixed_tfd 0 None zero_rgb in
  panics_before_ffi (list_dialog (tfd := t) NotWindows (bytes_of "t") [bytes_of "Id"]
                       (Some [[x61; x00]])).
Proof.
  intros t.
  destruct (other_nul_argument_panics (tfd := t) (bytes_of "t") [] [] [bytes_of "Id"]
              None [[x61; x00]] []) as (_ & _ & H & _).
  apply H; [discriminate | reflexivity].
Defined.

(** ** The decoder and the ASCII bytes *)

Abbreviation count a s := (count_occ Byte.byte_eq_dec s a).

Lemma width_not_one_high b : utf8_char_width b <> 1%nat -> 128 <= bval b.
Proof.
  unfold utf8_char_width. destruct (bval b <? 128) eqn:E; [congruence|].
  intros _. apply Z.ltb_ge, E.
Qed.

Lemma is_cont_high c : is_cont c = true -> 128 <= bval c.
Proof. unfold is_cont. intros H. apply andb_true_iff in H as [H _]. apply Z.leb_le, H. Qed.

Lemma in_range_high lo hi c : 128 <= lo -> in_range lo hi c = true -> 128 <= bval c.
Proof. unfold in_range. intros Hlo H. apply andb_true_iff in H as [H _]. apply Z.leb_le in H. lia. Qed.

Lemma second_ok3_high b c : second_ok3 b c = true -> 128 <= bval c.
Proof.
  unfold second_ok3.
  repeat match goal with |- context [if ?t then _ else _] => destruct t end;
    try discriminate; apply in_range_high; lia.
Qed.

Lemma second_ok4_high b c : second_ok4 b c = true -> 128 <= bval c.
Proof.
  unfold second_ok4.
  repeat match goal with |- context [if ?t then _ else _] => destruct t end;
    try discriminate; apply in_range_high; lia.
Qed.

Lemma high_not_ascii a c : bval a < 128 -> 128 <= bval c -> c <> a.
Proof. intros Ha Hc E. subst. lia. Qed.

Lemma count_replacement a l :
  bval a < 128 -> count a (REPLACEMENT_CHARACTER ++ l) = count a l.
Proof.
  intros Ha. rewrite count_occ_app.
  assert (E : count a REPLACEMENT_CHARACTER = 0%nat).
  { unfold REPLACEMENT_CHARACTER.
    rewrite !count_occ_cons_neq by (apply high_not_ascii; [exact Ha|apply Z.leb_le; reflexivity]).
    reflexivity. }
  rewrite E. reflexivity.
Qed.

Lemma count_skip a c l : bval a < 128 -> 128 <= bval c -> count a (c :: l) = count a l.
Proof. intros Ha Hc. apply count_occ_cons_neq, high_not_ascii; assumption. Qed.

Lemma count_cons_congr a b l1 l2 :
  count a l1 = count a l2 -> count a (b :: l1) = count a (b :: l2).
Proof. intros E. simpl. destruct (Byte.byte_eq_dec b a); congruence. Qed.

Ltac count_high Ha H := rewrite (count_skip _ _ _ Ha H).

Lemma count_replacement_alone a :
  bval a < 128 -> count a REPLACEMENT_CHARACTER = 0%nat.
Proof. intros Ha. rewrite <- (app_nil_r REPLACEMENT_CHARACTER), count_replacement by exact Ha. reflexivity. Qed.

Lemma lossy_ascii_count a l :
  bval a < 128 -> count a (from_utf8_lossy l) = count a l.
Proof.
  intros Ha.
  remember (length l) as n eqn:Hn. assert (Hle : (length l <= n)%nat) by lia.
  clear Hn. revert l Hle.
  induction n as [n IH] using lt_wf_ind. intros l Hle.
  destruct l as [|b rest]; [reflexivity|]. simpl in Hle.
  assert (IH' : forall l', (length l' < S (length rest))%nat ->
                 count a (from_utf8_lossy l') = count a l').
  { intros l' Hl'. apply (IH (length l')); lia. }
  clear IH Hle. cbn [from_utf8_lossy].
  destruct (utf8_char_width b) as [|[|[|[|[|w]]]]] eqn:Hw;
    [| apply count_cons_congr, IH'; lia | | | |];
    (assert (Hb : 128 <= bval b) by (apply width_not_one_high; rewrite Hw; discriminate));
    count_high Ha Hb;
    try (rewrite count_replacement by exact Ha; apply IH'; lia).
  - destruct rest as [|c rest2]; [rewrite count_replacement_alone by exact Ha; reflexivity|].
    destruct (is_cont c) eqn:Hc;
      [|rewrite count_replacement by exact Ha; apply IH'; simpl; lia].
    pose proof (is_cont_high c Hc) as Hc'.
    count_high Ha Hb. count_high Ha Hc'. count_high Ha Hc'. apply IH'. simpl. lia.
  - destruct rest as [|c rest2]; [rewrite count_replacement_alone by exact Ha; reflexivity|].
    destruct (second_ok3 b c) eqn:H2;
      [|rewrite count_replacement by exact Ha; apply IH'; simpl; lia].
    pose proof (second_ok3_high b c H2) as Hc'. count_high Ha Hc'.
    destruct rest2 as [|d rest3]; [rewrite count_replacement_alone by exact Ha; reflexivity|].
    destruct (is_cont d) eqn:Hd;
      [|rewrite count_replacement by exact Ha; apply IH'; simpl; lia].
    pose proof (is_cont_high d Hd) as Hd'.
    count_high Ha Hb. count_high Ha Hc'. count_high Ha Hd'. count_high Ha Hd'.
    apply IH'. simpl. lia.
  - destruct rest as [|c rest2]; [rewrite count_replacement_alone by exact Ha; reflexivity|].
    destruct (second_ok4 b c) eqn:H2;
      [|rewrite count_replacement by exact Ha; apply IH'; simpl; lia].
    pose proof (second_ok4_high b c H2) as Hc'. count_high Ha Hc'.
    destruct rest2 as [|d rest3]; [rewrite count_replacement_alone by exact Ha; reflexivity|].
    destruct (is_cont d) eqn:Hd;
      [|rewrite count_replacement by exact Ha; apply IH'; simpl; lia].
    pose proof (is_cont_high d Hd) as Hd'. count_high Ha Hd'.
    destruct rest3 as [|e rest4]; [rewrite count_replacement_alone by exact Ha; reflexivity|].
    destruct (is_cont e) eqn:He;
      [|rewrite count_replacement by exact Ha; apply IH'; simpl; lia].
    pose proof (is_cont_high e He) as He'.
    count_high Ha Hb. count_high Ha Hc'. count_high Ha Hd'. count_high Ha He'.
    count_high Ha He'.
    apply IH'. simpl. lia.
Qed.

Lemma has_nul_count s : has_nul s = true <-> (count x00 s > 0)%nat.
Proof.
  rewrite <- count_occ_In. unfold has_nul. rewrite existsb_exists. split.
  - intros (x & Hx & E). unfold is_nul in E. apply Byte.byte_dec_bl in E. subst. exact Hx.
  - intros Hx. exists x00. split; [exact Hx|reflexivity].
Qed.

Lemma lossy_has_nul l : has_nul (from_utf8_lossy l) = has_nul l.
Proof.
  pose proof (lossy_ascii_count x00 l eq_refl) as E.
  destruct (has_nul l) eqn:H1.
  - apply has_nul_count. rewrite E. apply has_nul_count, H1.
  - destruct (has_nul (from_utf8_lossy l)) eqn:H2; [|reflexivity].
    apply has_nul_count in H2. rewrite E in H2. apply has_nul_count in H2. congruence.
Qed.

Lemma CStr_from_ptr_nul_free buf : has_nul (CStr_from_ptr buf) = false.
Proof.
  induction buf as [|b r IH]; simpl; [reflexivity|].
  destruct (is_nul b) eqn:Hb; simpl; [reflexivity|]. rewrite Hb. exact IH.
Qed.

Lemma split_nul_free sep s : has_nul s = false -> all_nul_free (split sep s) = true.
Proof.
  induction s as [|b r IH]; simpl; [reflexivity|].
  intros H. apply orb_false_iff in H as [Hb Hr]. specialize (IH Hr).
  destruct (Byte.eqb b sep); simpl; [exact IH|].
  destruct (split sep r) as [|seg segs]; simpl in *; [rewrite Hb; reflexivity|].
  rewrite Hb. exact IH.
Qed.

(** X7: [String::from_utf8_lossy] keeps every ASCII byte: each one
    occurs as often in the decoded string as in the bytes read; in
    particular a NUL byte appears in the result exactly when the bytes
    read contain one. *)
Theorem from_utf8_lossy_ascii_count a l :
  bval a < 128 -> count a (from_utf8_lossy l) = count a l /\
  has_nul (from_utf8_lossy l) = has_nul l.
Proof. intros Ha. split; [exact (lossy_ascii_count a l Ha)|exact (lossy_has_nul l)]. Qed.

Lemma decoded_results_nul_free_helper buf :
  has_nul (owned_string_of_ptr buf) = false /\
  all_nul_free (split PIPE (owned_string_of_ptr buf)) = true.
Proof.
  unfold owned_string_of_ptr. rewrite lossy_has_nul, CStr_from_ptr_nul_free.
  split; [reflexivity|]. apply split_nul_free.
  rewrite lossy_has_nul. apply CStr_from_ptr_nul_free.
Qed.

(** X8: a string read back from the native library never holds a NUL
    byte, nor does any of the pieces [open_file_dialog_multi] splits it
    into. *)
Theorem decoded_results_nul_free buf :
  has_nul (owned_string_of_ptr buf) = false /\
  all_nul_free (split PIPE (owned_string_of_ptr buf)) = true.
Proof. exact (decoded_results_nul_free_helper buf). Qed.

Lemma panics_not_done {A} (m : M A) x :
  panics_before_ffi m -> snd (run m) <> Done x.
Proof. intros [p E]. rewrite E. discriminate. Qed.

Section ExtrasCompose.
Context `{tfd : Tinyfd}.

Lemma select_folder_done_args title path x :
  snd (run (select_folder_dialog title path)) = Done x ->
  has_nul title = false /\ has_nul path = false.
Proof.
  intros E. unfold select_folder_dialog in E.
  destruct (has_nul title) eqn:Ht.
  { exfalso. refine (panics_not_done _ _ _ E). apply panics_bind, panics_unwrap, Ht. }
  destruct (has_nul path) eqn:Hp; [|split; reflexivity].
  exfalso. refine (panics_not_done _ _ _ E). apply panics_first_or_second, Hp.
Qed.

Lemma open_impl_done_args title path f multi x :
  snd (run (open_file_dialog_impl title path f multi)) = Done x ->
  has_nul title = false /\ has_nul path = false /\ filter_ok f = true.
Proof.
  intros E. destruct (open_file_dialog_impl_cases title path f) as [[p Hp]|H]; [|exact H].
  rewrite Hp in E. discriminate.
Qed.

(** X9: what a dialog returns can be handed back to the binding: a
    folder chosen with [select_folder_dialog] is a path the save dialog
    and the folder dialog pass on to the native library, and so is each
    file chosen with [open_file_dialog_multi] for the open dialog with
    the same filter. *)
Theorem dialog_results_reusable title path f dir files :
  (snd (run (select_folder_dialog title path)) = Done (Some dir) ->
   fst (run (save_file_dialog title dir)) = [EvSaveFileDialog title dir 0 [] []] /\
   fst (run (select_folder_dialog title dir)) = [EvSelectFolderDialog title dir]) /\
  (snd (run (open_file_dialog_multi title path f)) = Done (Some files) ->
   forall file, In file files ->
   fst (run (open_file_dialog title file f))
   = [EvOpenFileDialog title file (as_c_int (length (filter_pats f))) (filter_pats f)
        (filter_description f) 0]).
Proof.
  split.
  - intros E. destruct (select_folder_done_args _ _ _ E) as [Ht Hp].
    rewrite (select_folder_dialog_run title path Ht Hp) in E. simpl in E.
    destruct (tinyfd_selectFolderDialog title path) as [buf|]; [|discriminate E].
    injection E as <-. pose proof (proj1 (decoded_results_nul_free_helper buf)) as Hd.
    split.
    + unfold save_file_dialog.
      rewrite (save_file_dialog_impl_run title _ None Ht Hd eq_refl). reflexivity.
    + rewrite (select_folder_dialog_run title _ Ht Hd). reflexivity.
  - intros E file Hin. unfold open_file_dialog_multi in E.
    destruct (open_impl_done_args _ _ _ _ _ E) as (Ht & Hp & Hf).
    rewrite (open_file_dialog_impl_run title path f true Ht Hp Hf) in E.
    simpl in E. unfold open_result in E.
    destruct (open_native title path f true) as [buf|]; [|discriminate E].
    injection E as <-.
    assert (Hd : has_nul file = false).
    { pose proof (proj2 (decoded_results_nul_free_helper buf)) as Hall.
      unfold all_nul_free in Hall. rewrite forallb_forall in Hall.
      apply negb_true_iff, Hall, Hin. }
    unfold open_file_dialog, run.
    rewrite (bind_done _ _ _ _ _ (open_file_dialog_impl_run title file f false Ht Hd Hf)).
    reflexivity.
Qed.

End ExtrasCompose.

Lemma CStr_from_ptr_app s junk :
  has_nul s = false -> CStr_from_ptr (s ++ x00 :: junk) = s.
Proof.
  induction s as [|b r IH]; simpl; [reflexivity|].
  intros H. apply orb_false_iff in H as [Hb Hr]. rewrite Hb, IH by exact Hr. reflexivity.
Qed.

(** X10: a NUL-free, valid UTF-8 string written into a NUL-terminated
    buffer is read back unchanged by [CStr::from_ptr(..)
    .to_string_lossy().into_owned()], whatever follows the terminator;
    the bytes [CString::new] accepted are exactly those bytes. *)
Theorem c_string_round_trip s junk :
  has_nul s = false -> valid_utf8 s = true ->
  CString_new s = inl s /\ owned_string_of_ptr (s ++ x00 :: junk) = s.
Proof.
  intros Hn Hv. split.
  - unfold CString_new. rewrite nul_position_none by exact Hn. reflexivity.
  - unfold owned_string_of_ptr. rewrite CStr_from_ptr_app by exact Hn.
    apply from_utf8_lossy_id, Hv.
Qed.

(** X11: decoding is stable: a string the binding returned, written
    back NUL-terminated into a native buffer, is read back as the same
    string, and it is valid UTF-8. *)
Theorem decoded_result_stable buf junk :
  valid_utf8 (owned_string_of_ptr buf) = true /\
  owned_string_of_ptr (owned_string_of_ptr buf ++ x00 :: junk) = owned_string_of_ptr buf.
Proof.
  assert (Hv : valid_utf8 (owned_string_of_ptr buf) = true).
  { apply from_utf8_lossy_valid. }
  split; [exact Hv|].
  unfold owned_string_of_ptr at 1.
  rewrite CStr_from_ptr_app by apply (proj1 (decoded_results_nul_free_helper buf)).
  apply from_utf8_lossy_id, Hv.
Qed.

Lemma nul_position_spec s p :
  nul_position s = Some p ->
  nth_error s p = Some x00 /\ has_nul (firstn p s) = false.
Proof.
  revert p. induction s as [|b r IH]; intros p; simpl; [discriminate|].
  destruct (is_nul b) eqn:Hb.
  - intros E. injection E as <-. apply Byte.byte_dec_bl in Hb. subst. split; reflexivity.
  - destruct (nul_position r) as [q|] eqn:Hq; simpl; [|discriminate].
    intros E. injection E as <-. destruct (IH q eq_refl) as [H1 H2].
    simpl. rewrite Hb. split; assumption.
Qed.

(** X12: [CString::new] succeeds exactly when the bytes hold no NUL
    byte, and then keeps them unchanged; bytes with a NUL byte make it
    fail with a [NulError] carrying the bytes and the position of their
    first NUL byte, and that error is the payload of the panic of
    [CString::new(..).unwrap()] in the binding, raised before anything
    else is recorded. *)
Theorem CString_new_spec s :
  (CString_new s = inl s <-> has_nul s = false) /\
  (forall p s', CString_new s = inr (NulError p s') ->
   s' = s /\ nth_error s p = Some x00 /\ has_nul (firstn p s) = false) /\
  (forall c, CString_new s = inl c -> c = s /\ has_nul s = false) /\
  (has_nul s = true ->
   exists p, CString_new s = inr (NulError p s) /\
   nth_error s p = Some x00 /\ has_nul (firstn p s) = false /\
   forall tr, cstring_new_unwrap s tr = (tr, Panicked (UnwrapNulError (NulError p s)))).
Proof.
  unfold CString_new. split; [|split; [|split]].
  - split.
    + intros E. destruct (has_nul s) eqn:Hn; [|reflexivity].
      destruct (nul_position_some s Hn) as [p Hp]. rewrite Hp in E. discriminate.
    + intros Hn. rewrite nul_position_none by exact Hn. reflexivity.
  - intros p s'. destruct (nul_position s) as [q|] eqn:Hq; [|discriminate].
    intros E. injection E as <- <-. split; [reflexivity|]. apply nul_position_spec, Hq.
  - intros c. destruct (nul_position s) as [q|] eqn:Hq; [discriminate|].
    intros E. injection E as <-. split; [reflexivity|].
    destruct (has_nul s) eqn:Hn; [|reflexivity].
    destruct (nul_position_some s Hn) as [p Hp]. congruence.
  - intros Hn. destruct (nul_position_some s Hn) as [p Hp].
    destruct (nul_position_spec s p Hp) as [H1 H2].
    exists p. rewrite Hp. split; [reflexivity|]. split; [exact H1|]. split; [exact H2|].
    intros tr. unfold cstring_new_unwrap, CString_new. rewrite Hp. reflexivity.
Qed.

(** ** [build.rs] *)

Lemma starts_with_spec prefix s :
  starts_with prefix s = true <-> exists r, s = prefix ++ r.
Proof.
  revert s. induction prefix as [|p ps IH]; intros s; simpl.
  - split; [intros _; exists s; reflexivity|reflexivity].
  - destruct s as [|c cs].
    + split; [discriminate|]. intros [r E]. discriminate.
    + rewrite andb_true_iff, IH. split.
      * intros [E [r Er]]. apply Byte.byte_dec_bl in E. subst. exists r. reflexivity.
      * intros [r E]. injection E as -> ->. split; [apply Byte.byte_dec_lb; reflexivity|].
        exists r. reflexivity.
Qed.

Lemma contains_spec hay needle :
  contains hay needle = true <-> exists p s, hay = p ++ needle ++ s.
Proof.
  induction hay as [|h hs IH]; simpl; rewrite orb_true_iff, starts_with_spec.
  - split.
    + intros [[r E]|E]; [|discriminate]. exists [], r. exact E.
    + intros (p & s & E). left. exists s. destruct p; [exact E|discriminate].
  - rewrite IH. split.
    + intros [[r E]|(p & s & E)].
      * exists [], r. exact E.
      * exists (h :: p), s. rewrite E. reflexivity.
    + intros (p & s & E). destruct p as [|q p].
      * left. exists s. exact E.
      * right. injection E as _ E. exists p, s. exact E.
Qed.

(** X13: the build script reads [TARGET] first and panics when it is
    unset or not Unicode, whatever the compiler would do; otherwise it
    panics, printing no link line, when [cfg.compile(..)] fails; when
    the compile succeeds it links [user32], [comdlg32] and [ole32]
    exactly when the target name contains [windows]. *)
Theorem build_main_spec raw compile_ok :
  (raw = None -> build_main raw compile_ok = BuildPanicked (TargetVarError NotPresent)) /\
  (forall t, raw = Some t -> valid_utf8 t = false ->
   build_main raw compile_ok = BuildPanicked (TargetVarError NotUnicode)) /\
  (forall t, raw = Some t -> valid_utf8 t = true -> compile_ok = false ->
   build_main raw compile_ok = BuildPanicked CompileFailed) /\
  (build_main raw compile_ok = BuildDone (compile_native :: windows_links) <->
   compile_ok = true /\
   exists t, raw = Some t /\ valid_utf8 t = true /\
   exists p s, t = p ++ bytes_of "windows" ++ s) /\
  (build_main raw compile_ok = BuildDone [compile_native] <->
   compile_ok = true /\
   exists t, raw = Some t /\ valid_utf8 t = true /\
   ~ exists p s, t = p ++ bytes_of "windows" ++ s).
Proof.
  unfold build_main, env_var.
  split; [intros ->; reflexivity|].
  split; [intros t -> Hv; rewrite Hv; reflexivity|].
  split; [intros t -> Hv Hc; rewrite Hv, Hc; reflexivity|].
  destruct raw as [t|].
  2:{ split; split; try discriminate; intros (_ & t & E & _); discriminate E. }
  destruct (valid_utf8 t) eqn:Hv.
  2:{ split; split; try discriminate; intros (_ & t' & E & Hv' & _);
      injection E as <-; congruence. }
  destruct compile_ok.
  2:{ split; split; try discriminate; intros [E _]; discriminate E. }
  destruct (contains t (bytes_of "windows")) eqn:Hc.
  - split; split.
    + intros _. split; [reflexivity|]. exists t. split; [reflexivity|]. split; [exact Hv|].
      apply contains_spec, Hc.
    + reflexivity.
    + discriminate.
    + intros (_ & t' & E & _ & Hn). injection E as <-. exfalso.
      apply Hn, contains_spec, Hc.
  - split; split.
    + discriminate.
    + intros (_ & t' & E & _ & Hw). injection E as <-. apply contains_spec in Hw.
      congruence.
    + intros _. split; [reflexivity|]. exists t. split; [reflexivity|].
      split; [exact Hv|].
      intros Hw. apply contains_spec in Hw. congruence.
    + reflexivity.
Qed.

(** ** Counting foreign calls *)

Lemma fst_bind {A B} (m : M A) (f : A -> M B) tr :
  fst (bind m f tr)
  = match m tr with (tr', Done a) => fst (f a tr') | (tr', Panicked _) => tr' end.
Proof. unfold bind. destruct (m tr) as [tr' [a|p]]; reflexivity. Qed.

Lemma pure_ret {A} (a : A) : no_native_call (ret a).
Proof. intros tr. reflexivity. Qed.

Lemma pure_raise {A} p : no_native_call (@raise A p).
Proof. intros tr. reflexivity. Qed.

Lemma pure_unwrap s : no_native_call (cstring_new_unwrap s).
Proof. intros tr. unfold cstring_new_unwrap. destruct (CString_new s); reflexivity. Qed.

Lemma pure_cstrings xs : no_native_call (cstrings_unwrap xs).
Proof. intros tr. apply cstrings_trace. Qed.

Lemma pure_bind {A B} (m : M A) (f : A -> M B) :
  no_native_call m -> (forall a, no_native_call (f a)) -> no_native_call (bind m f).
Proof.
  intros Hm Hf tr. rewrite fst_bind. specialize (Hm tr).
  destruct (m tr) as [tr' [a|p]]; simpl in Hm; subst; [apply Hf|reflexivity].
Qed.

Lemma le1_pure {A} (m : M A) : no_native_call m -> at_most_one_call m.
Proof. intros Hm tr. left. apply Hm. Qed.

Lemma le1_ffi {A B} ev (r : A) (f : A -> M B) :
  (forall a, no_native_call (f a)) -> at_most_one_call (bind (ffi ev r) f).
Proof.
  intros Hf tr. right. exists ev. rewrite fst_bind. simpl. apply Hf.
Qed.

Lemma le1_bind {A B} (m : M A) (f : A -> M B) :
  no_native_call m -> (forall a, at_most_one_call (f a)) -> at_most_one_call (bind m f).
Proof.
  intros Hm Hf tr. rewrite fst_bind. specialize (Hm tr).
  destruct (m tr) as [tr' [a|p]]; simpl in Hm; subst; [apply Hf|left; reflexivity].
Qed.

Lemma le1_bind_after {A B} (m : M A) (f : A -> M B) :
  at_most_one_call m -> (forall a, no_native_call (f a)) -> at_most_one_call (bind m f).
Proof.
  intros Hm Hf tr. rewrite fst_bind. destruct (Hm tr) as [E|[e E]];
    destruct (m tr) as [tr' [a|p]]; simpl in E; subst; rewrite ?Hf; eauto.
Qed.

Ltac pure_tac :=
  repeat first
    [ apply pure_ret | apply pure_raise | apply pure_unwrap | apply pure_cstrings
    | apply pure_bind; [|intros]
    | match goal with |- no_native_call (match ?x with _ => _ end) => destruct x end ].

Ltac one_call_tac :=
  repeat first
    [ apply le1_ffi; intros; pure_tac
    | apply le1_bind; [solve [pure_tac]|intros]
    | apply le1_bind_after; [|intros; solve [pure_tac]]
    | match goal with |- at_most_one_call (match ?x with _ => _ end) => destruct x end
    | apply le1_pure; pure_tac ].

Section ExtrasCalls.
Context `{tfd : Tinyfd}.

(** X14: no operation of the binding calls the native library more than
    once, whatever its arguments: a run leaves at most one event in the
    trace. *)
Theorem at_most_one_native_call kind title message icon default_button default path
    (f : filter) pats description tgt columns cells color :
  (length (fst (run (message_box kind title message icon default_button))) <= 1)%nat /\
  (length (fst (run (input_box title message default))) <= 1)%nat /\
  (length (fst (run (password_box title message))) <= 1)%nat /\
  (length (fst (run (save_file_dialog_with_filter title path pats description))) <= 1)%nat /\
  (length (fst (run (save_file_dialog title path))) <= 1)%nat /\
  (length (fst (run (open_file_dialog title path f))) <= 1)%nat /\
  (length (fst (run (open_file_dialog_multi title path f))) <= 1)%nat /\
  (length (fst (run (select_folder_dialog title path))) <= 1)%nat /\
  (length (fst (run (list_dialog tgt title columns cells))) <= 1)%nat /\
  (length (fst (run (color_chooser_dialog title color))) <= 1)%nat.
Proof.
  assert (Len : forall A (m : M A), at_most_one_call m -> (length (fst (run m)) <= 1)%nat).
  { intros A m Hm. unfold run. destruct (Hm []) as [E|[e E]]; rewrite E; simpl; lia. }
  unfold message_box, input_box, password_box, input_box_impl,
    save_file_dialog_with_filter, save_file_dialog, save_file_dialog_impl,
    open_file_dialog, open_file_dialog_multi, open_file_dialog_impl,
    select_folder_dialog, list_dialog, list_dialog_impl, color_chooser_dialog,
    filter_patterns.
  repeat split; apply Len; one_call_tac.
Qed.

End ExtrasCalls.

(** ** Where panics happen *)

Lemma pob_pure {A} (m : M A) : no_native_call m -> panics_only_before_call m.
Proof. intros Hm tr tr' p E. pose proof (Hm tr) as H. rewrite E in H. exact H. Qed.

Lemma pob_bind_pure {A B} (m : M A) (f : A -> M B) :
  no_native_call m -> (forall a, panics_only_before_call (f a)) ->
  panics_only_before_call (bind m f).
Proof.
  intros Hm Hf tr tr' p. unfold bind. pose proof (Hm tr) as H.
  destruct (m tr) as [tr1 [a|q]]; simpl in H; subst.
  - apply Hf.
  - intros E. injection E as <- _. reflexivity.
Qed.

Lemma pob_bind_np {A B} (m : M A) (f : A -> M B) :
  panics_only_before_call m -> (forall a, never_panics (f a)) ->
  panics_only_before_call (bind m f).
Proof.
  intros Hm Hf tr tr' p. unfold bind. destruct (m tr) as [tr1 [a|q]] eqn:E.
  - intros E'. exfalso. exact (Hf a tr1 tr' p E').
  - intros E'. injection E' as <- _. exact (Hm tr tr1 q E).
Qed.

Lemma pob_ffi {A} ev (r : A) : panics_only_before_call (ffi ev r).
Proof. intros tr tr' p. discriminate. Qed.

Lemma np_ret {A} (a : A) : never_panics (ret a).
Proof. intros tr tr' p. discriminate. Qed.

Ltac np_tac :=
  repeat first
    [ apply np_ret
    | match goal with |- never_panics (match ?x with _ => _ end) => destruct x end ].

Ltac pob_tac :=
  repeat first
    [ apply pob_ffi
    | apply pob_bind_pure; [solve [pure_tac]|intros]
    | apply pob_bind_np; [|intros; solve [np_tac]]
    | match goal with |- panics_only_before_call (match ?x with _ => _ end) => destruct x end
    | apply pob_pure; solve [pure_tac] ].

Section ExtrasPanics.
Context `{tfd : Tinyfd}.

(** X15: every operation that returns strings panics, if at all, before
    its native call: a panicking run has called nothing.  [message_box]
    is the exception, and only through its [unimplemented!()] on a
    native reply other than 0 and 1. *)
Theorem panics_precede_native_call kind title message icon default_button default path
    (f : filter) pats description tgt columns cells color p :
  (snd (run (input_box title message default)) = Panicked p ->
   fst (run (input_box title message default)) = []) /\
  (snd (run (password_box title message)) = Panicked p ->
   fst (run (password_box title message)) = []) /\
  (snd (run (save_file_dialog_with_filter title path pats description)) = Panicked p ->
   fst (run (save_file_dialog_with_filter title path pats description)) = []) /\
  (snd (run (save_file_dialog title path)) = Panicked p ->
   fst (run (save_file_dialog title path)) = []) /\
  (snd (run (open_file_dialog title path f)) = Panicked p ->
   fst (run (open_file_dialog title path f)) = []) /\
  (snd (run (open_file_dialog_multi title path f)) = Panicked p ->
   fst (run (open_file_dialog_multi title path f)) = []) /\
  (snd (run (select_folder_dialog title path)) = Panicked p ->
   fst (run (select_folder_dialog title path)) = []) /\
  (snd (run (list_dialog tgt title columns cells)) = Panicked p ->
   fst (run (list_dialog tgt title columns cells)) = []) /\
  (snd (run (color_chooser_dialog title color)) = Panicked p ->
   fst (run (color_chooser_dialog title color)) = []) /\
  (snd (run (message_box kind title message icon default_button)) = Panicked p ->
   fst (run (message_box kind title message icon default_button)) = [] \/
   p = Unimplemented).
Proof.
  assert (Run : forall A (m : M A), panics_only_before_call m ->
                snd (run m) = Panicked p -> fst (run m) = []).
  { intros A m Hm E. unfold run in *. destruct (m []) as [tr o] eqn:Em.
    simpl in E. subst o. exact (Hm [] tr p Em). }
  split; [|split; [|split; [|split; [|split; [|split; [|split; [|split; [|split]]]]]]]];
    try (apply Run;
         unfold input_box, password_box, input_box_impl,
           save_file_dialog_with_filter, save_file_dialog, save_file_dialog_impl,
           open_file_dialog, open_file_dialog_multi, open_file_dialog_impl,
           select_folder_dialog, list_dialog, list_dialog_impl, color_chooser_dialog,
           filter_patterns, decode_result;
         pob_tac).
  intros E.
  destruct (has_nul title) eqn:Ht.
  { left. destruct (unwrap_nul title [] Ht) as [q Hq]. unfold run, message_box.
    rewrite (bind_panicked _ _ _ _ _ Hq). reflexivity. }
  destruct (has_nul message) eqn:Hm.
  { left. destruct (unwrap_nul message [] Hm) as [q Hq]. unfold run, message_box.
    unwrap_step title Ht. rewrite (bind_panicked _ _ _ _ _ Hq). reflexivity. }
  right. rewrite (message_box_run kind title message icon default_button Ht Hm) in E.
  cbv zeta in E. simpl in E.
  destruct (message_box_code kind title message icon default_button)
    as [|[q|q|]|q]; try discriminate E; injection E as <-; reflexivity.
Qed.

End ExtrasPanics.

Lemma unwrap_nul_error s tr :
  has_nul s = true ->
  exists q, nul_position s = Some q /\
  cstring_new_unwrap s tr = (tr, Panicked (UnwrapNulError (NulError q s))).
Proof.
  intros Hn. destruct (nul_position_some s Hn) as [q Hq]. exists q. split; [exact Hq|].
  unfold cstring_new_unwrap, CString_new. rewrite Hq. reflexivity.
Qed.

Section ExtrasNulError.
Context `{tfd : Tinyfd}.

(** X17: the panic of a file dialog reports the first argument, in the
    order title, path, filter description, that holds a NUL byte, with
    the position of its first NUL byte: a NUL-free title and a path with
    a NUL byte give a [NulError] on the path, whatever the filter. *)
Theorem nul_error_names_first_bad_argument title path f multi :
  has_nul title = false ->
  (has_nul path = true ->
   exists q, nth_error path q = Some x00 /\ has_nul (firstn q path) = false /\
   run (save_file_dialog_impl title path f)
   = ([], Panicked (UnwrapNulError (NulError q path))) /\
   run (open_file_dialog_impl title path f multi)
   = ([], Panicked (UnwrapNulError (NulError q path))) /\
   run (select_folder_dialog title path)
   = ([], Panicked (UnwrapNulError (NulError q path)))) /\
  (has_nul path = false -> has_nul (filter_description f) = true ->
   exists q, nth_error (filter_description f) q = Some x00 /\
   run (save_file_dialog_impl title path f)
   = ([], Panicked (UnwrapNulError (NulError q (filter_description f)))) /\
   run (open_file_dialog_impl title path f multi)
   = ([], Panicked (UnwrapNulError (NulError q (filter_description f))))).
Proof.
  intros Ht. split.
  - intros Hp. destruct (unwrap_nul_error path [] Hp) as (q & Hq & E).
    destruct (nul_position_spec path q Hq) as [H1 H2].
    exists q. split; [exact H1|]. split; [exact H2|].
    unfold run, save_file_dialog_impl, open_file_dialog_impl, select_folder_dialog.
    split; [|split]; unwrap_step title Ht; rewrite (bind_panicked _ _ _ _ _ E);
      reflexivity.
  - intros Hp Hd. destruct (unwrap_nul_error _ [] Hd) as (q & Hq & E).
    exists q. split; [exact (proj1 (nul_position_spec _ q Hq))|].
    unfold run, save_file_dialog_impl, open_file_dialog_impl.
    split; unwrap_step title Ht; unwrap_step path Hp; rewrite (bind_panicked _ _ _ _ _ E);
      reflexivity.
Qed.

End ExtrasNulError.

Lemma from_utf8_lossy_ascii_count_witness :
  count x00 (from_utf8_lossy [xc3; x00; x41]) = 1%nat.
Proof. exact (proj1 (from_utf8_lossy_ascii_count x00 [xc3; x00; x41] eq_refl)). Defined.

Lemma dialog_results_reusable_witness :
  let t := fixed_tfd 0 (Some (bytes_of "/tmp" ++ [x00])) zero_rgb in
  fst (run (save_file_dialog (tfd := t) (bytes_of "t") (bytes_of "/tmp")))
  = [EvSaveFileDialog (bytes_of "t") (bytes_of "/tmp") 0 [] []].
Proof.
  intros t.
  destruct (dialog_results_reusable (tfd := t) (bytes_of "t") [] None (bytes_of "/tmp") [])
    as [H _].
  exact (proj1 (H eq_refl)).
Defined.

Lemma c_string_round_trip_witness :
  owned_string_of_ptr (bytes_of "caf" ++ [xc3; xa9] ++ x00 :: [x01]) = bytes_of "caf" ++ [xc3; xa9].
Proof. exact (proj2 (c_string_round_trip (bytes_of "caf" ++ [xc3; xa9]) [x01] eq_refl eq_refl)). Defined.

Lemma build_main_spec_witness :
  build_main (Some (bytes_of "x86_64-pc-windows-gnu")) true
  = BuildDone (compile_native :: windows_links) /\
  build_main (Some (bytes_of "x86_64-pc-windows-gnu")) false = BuildPanicked CompileFailed.
Proof.
  destruct (build_main_spec (Some (bytes_of "x86_64-pc-windows-gnu")) true)
    as (_ & _ & _ & [_ H] & _).
  destruct (build_main_spec (Some (bytes_of "x86_64-pc-windows-gnu")) false)
    as (_ & _ & Hf & _).
  split.
  - apply H. split; [reflexivity|]. exists (bytes_of "x86_64-pc-windows-gnu").
    split; [reflexivity|]. split; [reflexivity|].
    exists (bytes_of "x86_64-pc-"), (bytes_of "-gnu"). reflexivity.
  - exact (Hf _ eq_refl eq_refl eq_refl).
Defined.

Lemma nul_error_names_first_bad_argument_witness :
  let t := fixed_tfd 0 None zero_rgb in
  run (select_folder_dialog (tfd := t) (bytes_of "t") [x61; x00])
  = ([], Panicked (UnwrapNulError (NulError 1 [x61; x00]))).
Proof.
  intros t.
  destruct (proj1 (nul_error_names_first_bad_argument (tfd := t) (bytes_of "t") [x61; x00]
                     None false eq_refl) eq_refl) as (q & Hq & _ & _ & _ & E).
  destruct q as [|[|q]]; simpl in Hq; try discriminate Hq; [exact E|].
  destruct q; discriminate Hq.
Defined.
